(** * Health Advisor (DeepSeek) : the orchestration layer of [main.py]

    A shallow embedding of the three pieces of [main.py] that carry
    behaviour: [get_deepseek_response] (the completion client),
    [text_to_speech] (the speech trigger) and the Streamlit script body
    (the session controller: sidebar buttons, chat input, quick actions).

    Python values are modelled as the script meets them: [str] is a
    sequence of Unicode code points, the decoded JSON body is a [pyval],
    exceptions are an inductive [exn] with the class tests the [except]
    clauses perform, and the script's effects (outbound POSTs, HTML
    components, status boxes, writes to [st.session_state.messages]) are
    logged in a trace. *)

From Stdlib Require Import List ZArith NArith Bool String Ascii Lia.
From Stdlib Require Import DecimalString.
Import ListNotations.

Local Open Scope list_scope.
Local Set Warnings "-register-all".

(** ** Python [str] : sequences of code points *)

Module PyStr.

Definition str := list N.

(** An ASCII literal of the source, character by character. *)
Fixpoint lit (s : string) : str :=
  match s with
  | EmptyString => []
  | String c s' => N_of_ascii c :: lit s'
  end.

Fixpoint eqb (a b : str) : bool :=
  match a, b with
  | [], [] => true
  | x :: a', y :: b' => N.eqb x y && eqb a' b'
  | _, _ => false
  end.

(** [str.isspace] for a single code point (CPython's Unicode database:
    bidirectional class WS, B or S, or category Zs). *)
Definition isspace (c : N) : bool :=
  ((9 <=? c) && (c <=? 13) || (28 <=? c) && (c <=? 32)
   || (c =? 133) || (c =? 160) || (c =? 5760)
   || (8192 <=? c) && (c <=? 8202)
   || (c =? 8232) || (c =? 8233) || (c =? 8239) || (c =? 8287)
   || (c =? 12288))%N.

Fixpoint lstrip (s : str) : str :=
  match s with
  | [] => []
  | c :: s' => if isspace c then lstrip s' else s
  end.

Definition rstrip (s : str) : str := rev (lstrip (rev s)).

(** [s.strip()] *)
Definition strip (s : str) : str := rstrip (lstrip s).

(** [s.startswith(p)] *)
Fixpoint startswith (s p : str) {struct p} : bool :=
  match p with
  | [] => true
  | x :: p' =>
      match s with
      | [] => false
      | y :: s' => N.eqb x y && startswith s' p'
      end
  end.

(** [p in s] on two strings: substring test. *)
Fixpoint contains (p s : str) : bool :=
  startswith s p ||
  match s with
  | [] => false
  | _ :: s' => contains p s'
  end.

(** [s.replace(old, new)] when [old] is a single character, which is how
    the source calls it. *)
Definition replace1 (old : N) (new : str) (s : str) : str :=
  flat_map (fun c => if N.eqb c old then new else [c]) s.

(** [str(n)] of an integer. *)
Definition of_Z (z : Z) : str := lit (NilZero.string_of_int (Z.to_int z)).

(** Truthiness of a string: non-empty. *)
Definition truthy (s : str) : bool :=
  match s with [] => false | _ :: _ => true end.

End PyStr.

Import PyStr.

Notation "'u' s" := (lit s%string) (at level 9, s at level 0, only parsing).

(** Non-ASCII characters of the source's literals. *)
Definition CROSS : str := [10060%N].                    (* U+274C *)
Definition WARNING : str := [9888%N; 65039%N].           (* U+26A0 U+FE0F *)
Definition STOPWATCH : str := [9201%N; 65039%N].         (* U+23F1 U+FE0F *)
Definition GLOBE : str := [127760%N].                    (* U+1F310 *)
Definition CHECK_MARK : str := [9989%N].                 (* U+2705 *)
Definition NL : N := 10%N.
Definition DQUOTE : N := 34%N.
Definition BACKSLASH : N := 92%N.
Definition BACKTICK : N := 96%N.
Definition SPACE : N := 32%N.

(** ** Python values, as [json] decoding and the script produce them *)

Inductive pyval :=
| PNone
| PBool (b : bool)
| PInt (z : Z)
| PFloat (mantissa exponent : Z)      (* mantissa * 10 ^ exponent *)
| PStr (s : str)
| PList (l : list pyval)
| PDict (d : list (str * pyval)).     (* keys of a decoded JSON object are strings *)

(** ** Exceptions *)

Inductive exn :=
| ReadTimeout (msg : str)              (* requests.exceptions.Timeout *)
| ConnectTimeout (msg : str)           (* both ConnectionError and Timeout *)
| ConnectionError (msg : str)
| HTTPError (msg : str)
| RequestsJSONDecodeError (msg : str)  (* requests >= 2.27: InvalidJSONError and json.JSONDecodeError *)
| OtherRequestException (msg : str)
| JSONDecodeError (msg : str)          (* json.JSONDecodeError *)
| KeyError (key_repr : str)
| IndexError (msg : str)
| TypeError (msg : str)
| AttributeError (msg : str).

(** [str(e)] *)
Definition exn_str (e : exn) : str :=
  match e with
  | ReadTimeout m | ConnectTimeout m | ConnectionError m | HTTPError m
  | RequestsJSONDecodeError m | OtherRequestException m | JSONDecodeError m
  | KeyError m | IndexError m | TypeError m | AttributeError m => m
  end.

(** [isinstance] tests of the [except] clauses. *)
Definition is_Timeout (e : exn) : bool :=
  match e with ReadTimeout _ | ConnectTimeout _ => true | _ => false end.

Definition is_ConnectionError (e : exn) : bool :=
  match e with ConnectTimeout _ | ConnectionError _ => true | _ => false end.

Definition is_RequestException (e : exn) : bool :=
  match e with
  | ReadTimeout _ | ConnectTimeout _ | ConnectionError _ | HTTPError _
  | RequestsJSONDecodeError _ | OtherRequestException _ => true
  | _ => false
  end.

Definition is_parse_failure (e : exn) : bool :=
  match e with
  | KeyError _ | IndexError _ | JSONDecodeError _ | RequestsJSONDecodeError _ => true
  | _ => false
  end.

(** A computation that returns or raises. *)
Inductive result (A : Type) :=
| Val (a : A)
| Exc (e : exn).
Arguments Val {A} a.
Arguments Exc {A} e.

Definition bind {A B} (m : result A) (k : A -> result B) : result B :=
  match m with
  | Val a => k a
  | Exc e => Exc e
  end.

Notation "x <- m ;; k" := (bind m (fun x => k))
  (at level 61, m at next level, right associativity).

(** ** Operations on Python values used by the client *)

Fixpoint assoc (k : str) (d : list (str * pyval)) : option pyval :=
  match d with
  | [] => None
  | (k', v) :: d' => if PyStr.eqb k k' then Some v else assoc k d'
  end.

(** [repr] of the keys the source subscripts with (plain identifiers). *)
Definition repr_key (k : str) : str := u"'" ++ k ++ u"'".

(** [item == v] for a string [item]. *)
Definition str_eq_py (item : str) (v : pyval) : bool :=
  match v with
  | PStr s => PyStr.eqb item s
  | _ => false
  end.

(** [item in container] for a string [item]. *)
Definition py_contains (item : str) (container : pyval) : result bool :=
  match container with
  | PDict d => Val (match assoc item d with Some _ => true | None => false end)
  | PList l => Val (existsb (str_eq_py item) l)
  | PStr s => Val (contains item s)
  | _ => Exc (TypeError (u"argument is not iterable"))
  end.

(** [len(x)] *)
Definition py_len (x : pyval) : result Z :=
  match x with
  | PDict d => Val (Z.of_nat (List.length d))
  | PList l => Val (Z.of_nat (List.length l))
  | PStr s => Val (Z.of_nat (List.length s))
  | _ => Exc (TypeError (u"object has no len()"))
  end.

(** [x[k]] for a string key. *)
Definition py_getitem_str (x : pyval) (k : str) : result pyval :=
  match x with
  | PDict d =>
      match assoc k d with
      | Some v => Val v
      | None => Exc (KeyError (repr_key k))
      end
  | PList _ => Exc (TypeError (u"list indices must be integers or slices, not str"))
  | PStr _ => Exc (TypeError (u"string indices must be integers"))
  | _ => Exc (TypeError (u"object is not subscriptable"))
  end.

(** [x[0]] *)
Definition py_getitem_0 (x : pyval) : result pyval :=
  match x with
  | PDict _ => Exc (KeyError (u"0"))
  | PList [] => Exc (IndexError (u"list index out of range"))
  | PList (v :: _) => Val v
  | PStr [] => Exc (IndexError (u"string index out of range"))
  | PStr (c :: _) => Val (PStr [c])
  | _ => Exc (TypeError (u"object is not subscriptable"))
  end.

(** ** The completion client: [get_deepseek_response] *)

Local Open Scope Z_scope.

(** One entry of [st.session_state.messages]: [{"role": ..., "content": ...}]. *)
Record message := { role : str; content : pyval }.

Definition message_json (m : message) : pyval :=
  PDict [(u"role", PStr (role m)); (u"content", content m)].

(** What [requests.post(url, headers=..., json=..., timeout=...)] is given. *)
Record request := {
  req_url : str;
  req_headers : list (str * str);
  req_json : pyval;
  req_timeout : Z
}.

(** The part of a [requests.Response] the client reads: the status line,
    the final URL, and what [response.json()] does on the body. *)
Record response := {
  status_code : Z;
  reason : str;
  resp_url : str;
  json : result pyval
}.

(** [requests.post] returns a response or raises. *)
Inductive post_outcome :=
| Responds (r : response)
| PostRaises (e : exn).

(** [Response.raise_for_status] of the [requests] library: an [HTTPError]
    for 4xx and 5xx, nothing otherwise. *)
Definition http_error_msg (r : response) : str :=
  if (400 <=? status_code r) && (status_code r <? 500) then
    of_Z (status_code r) ++ u" Client Error: " ++ reason r ++ u" for url: " ++ resp_url r
  else if (500 <=? status_code r) && (status_code r <? 600) then
    of_Z (status_code r) ++ u" Server Error: " ++ reason r ++ u" for url: " ++ resp_url r
  else [].

Definition raise_for_status (r : response) : result unit :=
  if truthy (http_error_msg r) then Exc (HTTPError (http_error_msg r)) else Val tt.

Definition url : str := u"https://api.deepseek.com/chat/completions".

Definition SYSTEM_PROMPT : str :=
  u"You are a helpful health advice assistant. Provide general health information, wellness tips, and lifestyle advice. "
  ++ [NL; NL] ++ u"IMPORTANT DISCLAIMERS:"
  ++ [NL] ++ u"- You are NOT a replacement for professional medical advice"
  ++ [NL] ++ u"- Always remind users to consult healthcare professionals for diagnosis and treatment"
  ++ [NL] ++ u"- Do not provide specific diagnoses or prescribe medications"
  ++ [NL] ++ u"- Focus on general wellness, preventive care, and healthy lifestyle tips"
  ++ [NL] ++ u"- If someone describes serious symptoms, urge them to seek immediate medical attention"
  ++ [NL; NL] ++ u"Be empathetic, informative, and always prioritize user safety. Keep responses concise and clear.".

Definition system_message : message :=
  {| role := u"system"; content := PStr SYSTEM_PROMPT |}.

(** The strings the client returns on its classified paths. *)
Definition MSG_EMPTY_KEY : str :=
  CROSS ++ u" Error: API key is empty. Please enter a valid DeepSeek API key in the sidebar.".
Definition MSG_AUTH : str :=
  CROSS ++ u" Authentication Error: Invalid API key. Please check your DeepSeek API key and make sure it's correct.".
Definition MSG_RATE_LIMIT : str :=
  WARNING ++ u" Rate Limit: Too many requests. Please wait a moment and try again.".
Definition MSG_SERVER : str :=
  CROSS ++ u" Server Error: DeepSeek API is experiencing issues. Please try again later.".
Definition MSG_FORMAT : str :=
  CROSS ++ u" Error: Unexpected response format from API.".
Definition MSG_TIMEOUT : str :=
  STOPWATCH ++ u" Timeout Error: Request took too long. Please try again.".
Definition MSG_CONNECTION : str :=
  GLOBE ++ u" Connection Error: Unable to connect to DeepSeek API. Check your internet connection.".
Definition MSG_REQUEST (detail : str) : str :=
  CROSS ++ u" Request Error: " ++ detail.
Definition MSG_PARSE (detail : str) : str :=
  CROSS ++ u" Parse Error: Unable to parse API response - " ++ detail.

(** The request built from the transcript and the key. *)
Definition build_request (messages : list message) (api_key : str) : request :=
  let headers :=
    [(u"Content-Type", u"application/json");
     (u"Authorization", u"Bearer " ++ strip api_key)] in
  let full_messages := [system_message] ++ messages in
  let data :=
    PDict [(u"model", PStr (u"deepseek-chat"));
           (u"messages", PList (map message_json full_messages));
           (u"temperature", PFloat 7 (-1));
           (u"max_tokens", PInt 1000);
           (u"stream", PBool false)] in
  {| req_url := url; req_headers := headers; req_json := data; req_timeout := 60 |}.

(** The body of the [try] block, after [requests.post] has answered. *)
Definition try_block (o : post_outcome) : result pyval :=
  match o with
  | PostRaises e => Exc e
  | Responds response =>
      if status_code response =? 401 then Val (PStr MSG_AUTH)
      else if status_code response =? 429 then Val (PStr MSG_RATE_LIMIT)
      else if status_code response =? 500 then Val (PStr MSG_SERVER)
      else
        _ <- raise_for_status response ;;
        result <- json response ;;
        has <- py_contains (u"choices") result ;;
        if has then
          choices <- py_getitem_str result (u"choices") ;;
          n <- py_len choices ;;
          if n >? 0 then
            choices' <- py_getitem_str result (u"choices") ;;
            first <- py_getitem_0 choices' ;;
            msg <- py_getitem_str first (u"message") ;;
            py_getitem_str msg (u"content")
          else Val (PStr MSG_FORMAT)
        else Val (PStr MSG_FORMAT)
  end.

(** The [except] clauses, in the order of the source. *)
Definition except_clauses (e : exn) : result pyval :=
  if is_Timeout e then Val (PStr MSG_TIMEOUT)
  else if is_ConnectionError e then Val (PStr MSG_CONNECTION)
  else if is_RequestException e then Val (PStr (MSG_REQUEST (exn_str e)))
  else if is_parse_failure e then Val (PStr (MSG_PARSE (exn_str e)))
  else Exc e.

Definition try_except (body : result pyval) : result pyval :=
  match body with
  | Val v => Val v
  | Exc e => except_clauses e
  end.

(** [get_deepseek_response(messages, api_key)], over the behaviour [post]
    of the network for this call.  The first component lists the requests
    issued, the second what the call returns or raises. *)
Definition get_deepseek_response (post : request -> post_outcome)
    (messages : list message) (api_key : str) : list request * result pyval :=
  if negb (truthy api_key) || PyStr.eqb (strip api_key) [] then
    ([], Val (PStr MSG_EMPTY_KEY))
  else
    let req := build_request messages api_key in
    ([req], try_except (try_block (post req))).

(** ** The speech trigger: [text_to_speech] *)

Definition clean_text (text : str) : str :=
  replace1 NL [SPACE] (replace1 DQUOTE [BACKSLASH; DQUOTE] text).

(** The f-string around [{clean_text}]: up to the opening backtick, and from
    the closing backtick on. *)
Definition JS_BEFORE : str :=
  [NL] ++ u"    <script>"
  ++ [NL] ++ u"    function speak() {"
  ++ [NL] ++ u"        const text = `".

Definition JS_AFTER : str :=
  u";"
  ++ [NL] ++ u"        const utterance = new SpeechSynthesisUtterance(text);"
  ++ [NL] ++ u"        utterance.rate = 0.9;"
  ++ [NL] ++ u"        utterance.pitch = 1;"
  ++ [NL] ++ u"        utterance.volume = 1;"
  ++ [NL] ++ u"        window.speechSynthesis.speak(utterance);"
  ++ [NL] ++ u"    }"
  ++ [NL] ++ u"    speak();"
  ++ [NL] ++ u"    </script>"
  ++ [NL] ++ u"    ".

Definition text_to_speech (text : str) : str :=
  JS_BEFORE ++ clean_text text ++ [BACKTICK] ++ JS_AFTER.

(** How a JavaScript lexer reads a template literal whose opening backtick
    has just been consumed: a backslash takes the next character with it, an
    unescaped backtick ends the literal, [${] opens a substitution.
    [template_rest s] is what follows the closing backtick of a literal
    without substitution, if the literal is closed at all. *)
Fixpoint template_rest (s : str) : option str :=
  match s with
  | [] => None
  | c :: s' =>
      if N.eqb c BACKTICK then Some s'
      else if N.eqb c BACKSLASH then
        match s' with
        | [] => None
        | _ :: s'' => template_rest s''
        end
      else if N.eqb c 36 then
        match s' with
        | [] => None
        | d :: s'' => if N.eqb d 123 then None else template_rest s'
        end
      else template_rest s'
  end.

(** The JavaScript side: the literal opened by the f-string is the one its
    own closing backtick ends, so that the rest of the script is read as the
    f-string wrote it. *)
Definition literal_closed (text : str) : bool :=
  match template_rest (clean_text text ++ [BACKTICK] ++ JS_AFTER) with
  | Some rest => PyStr.eqb rest JS_AFTER
  | None => false
  end.

(** The payload is given to [st.components.v1.html], so the browser reads it
    as HTML first: the script is what stands between [<script>] and the
    first end tag the HTML tokenizer finds.  These are the tokenizer's
    states inside a script element. *)
Inductive script_state :=
| ScriptData
| ScriptDataLessThan
| ScriptDataEndTagOpen
| ScriptDataEndTagName (name : str)
| ScriptDataEscapeStart
| ScriptDataEscapeStartDash
| ScriptDataEscaped
| ScriptDataEscapedDash
| ScriptDataEscapedDashDash
| ScriptDataEscapedLessThan
| ScriptDataEscapedEndTagOpen
| ScriptDataEscapedEndTagName (name : str)
| ScriptDataDoubleEscapeStart (name : str)
| ScriptDataDoubleEscaped
| ScriptDataDoubleEscapedDash
| ScriptDataDoubleEscapedDashDash
| ScriptDataDoubleEscapedLessThan
| ScriptDataDoubleEscapeEnd (name : str).

Definition LESS_THAN : N := 60%N.
Definition GREATER_THAN : N := 62%N.
Definition SOLIDUS : N := 47%N.
Definition BANG : N := 33%N.
Definition HYPHEN : N := 45%N.

Definition ascii_alpha (c : N) : bool :=
  ((65 <=? c) && (c <=? 90) || (97 <=? c) && (c <=? 122))%N.

Definition ascii_lower (c : N) : N :=
  if ((65 <=? c) && (c <=? 90))%N then (c + 32)%N else c.

(** Tab, line feed, form feed, space (and carriage return, which the input
    stream turns into a line feed), [/] and [>] end a tag name. *)
Definition ends_tag_name (c : N) : bool :=
  N.eqb c 9 || N.eqb c 10 || N.eqb c 12 || N.eqb c 13 || N.eqb c 32
  || N.eqb c SOLIDUS || N.eqb c GREATER_THAN.

(** The three states that consume a character without looking back. *)
Definition in_script_data (c : N) : script_state :=
  if N.eqb c LESS_THAN then ScriptDataLessThan else ScriptData.

Definition in_escaped (c : N) : script_state :=
  if N.eqb c HYPHEN then ScriptDataEscapedDash
  else if N.eqb c LESS_THAN then ScriptDataEscapedLessThan
  else ScriptDataEscaped.

Definition in_double_escaped (c : N) : script_state :=
  if N.eqb c HYPHEN then ScriptDataDoubleEscapedDash
  else if N.eqb c LESS_THAN then ScriptDataDoubleEscapedLessThan
  else ScriptDataDoubleEscaped.

(** One character: [None] when it completes the name of the end tag
    [</script], the next state otherwise.  Where the tokenizer reconsumes the
    character in another state, that state's move is taken at once. *)
Definition script_step (st : script_state) (c : N) : option script_state :=
  match st with
  | ScriptData => Some (in_script_data c)
  | ScriptDataLessThan =>
      if N.eqb c SOLIDUS then Some ScriptDataEndTagOpen
      else if N.eqb c BANG then Some ScriptDataEscapeStart
      else Some (in_script_data c)
  | ScriptDataEndTagOpen =>
      if ascii_alpha c then Some (ScriptDataEndTagName [ascii_lower c])
      else Some (in_script_data c)
  | ScriptDataEndTagName name =>
      if ends_tag_name c then
        if PyStr.eqb name (u"script") then None else Some (in_script_data c)
      else if ascii_alpha c then Some (ScriptDataEndTagName (name ++ [ascii_lower c]))
      else Some (in_script_data c)
  | ScriptDataEscapeStart =>
      if N.eqb c HYPHEN then Some ScriptDataEscapeStartDash
      else Some (in_script_data c)
  | ScriptDataEscapeStartDash =>
      if N.eqb c HYPHEN then Some ScriptDataEscapedDashDash
      else Some (in_script_data c)
  | ScriptDataEscaped => Some (in_escaped c)
  | ScriptDataEscapedDash =>
      if N.eqb c HYPHEN then Some ScriptDataEscapedDashDash
      else if N.eqb c LESS_THAN then Some ScriptDataEscapedLessThan
      else Some ScriptDataEscaped
  | ScriptDataEscapedDashDash =>
      if N.eqb c HYPHEN then Some ScriptDataEscapedDashDash
      else if N.eqb c LESS_THAN then Some ScriptDataEscapedLessThan
      else if N.eqb c GREATER_THAN then Some ScriptData
      else Some ScriptDataEscaped
  | ScriptDataEscapedLessThan =>
      if N.eqb c SOLIDUS then Some ScriptDataEscapedEndTagOpen
      else if ascii_alpha c then Some (ScriptDataDoubleEscapeStart [ascii_lower c])
      else Some (in_escaped c)
  | ScriptDataEscapedEndTagOpen =>
      if ascii_alpha c then Some (ScriptDataEscapedEndTagName [ascii_lower c])
      else Some (in_escaped c)
  | ScriptDataEscapedEndTagName name =>
      if ends_tag_name c then
        if PyStr.eqb name (u"script") then None else Some (in_escaped c)
      else if ascii_alpha c then
        Some (ScriptDataEscapedEndTagName (name ++ [ascii_lower c]))
      else Some (in_escaped c)
  | ScriptDataDoubleEscapeStart name =>
      if ends_tag_name c then
        if PyStr.eqb name (u"script") then Some ScriptDataDoubleEscaped
        else Some ScriptDataEscaped
      else if ascii_alpha c then
        Some (ScriptDataDoubleEscapeStart (name ++ [ascii_lower c]))
      else Some (in_escaped c)
  | ScriptDataDoubleEscaped => Some (in_double_escaped c)
  | ScriptDataDoubleEscapedDash =>
      if N.eqb c HYPHEN then Some ScriptDataDoubleEscapedDashDash
      else if N.eqb c LESS_THAN then Some ScriptDataDoubleEscapedLessThan
      else Some ScriptDataDoubleEscaped
  | ScriptDataDoubleEscapedDashDash =>
      if N.eqb c HYPHEN then Some ScriptDataDoubleEscapedDashDash
      else if N.eqb c LESS_THAN then Some ScriptDataDoubleEscapedLessThan
      else if N.eqb c GREATER_THAN then Some ScriptData
      else Some ScriptDataDoubleEscaped
  | ScriptDataDoubleEscapedLessThan =>
      if N.eqb c SOLIDUS then Some (ScriptDataDoubleEscapeEnd [])
      else Some (in_double_escaped c)
  | ScriptDataDoubleEscapeEnd name =>
      if ends_tag_name c then
        if PyStr.eqb name (u"script") then Some ScriptDataEscaped
        else Some ScriptDataDoubleEscaped
      else if ascii_alpha c then
        Some (ScriptDataDoubleEscapeEnd (name ++ [ascii_lower c]))
      else Some (in_double_escaped c)
  end.

(** What follows the character that completes the name of the first end
    tag of the script element, if there is such a tag. *)
Fixpoint script_end (st : script_state) (s : str) : option str :=
  match s with
  | [] => None
  | c :: s' =>
      match script_step st c with
      | None => Some s'
      | Some st' => script_end st' s'
      end
  end.

(** [s] without its prefix [p]. *)
Fixpoint after_prefix (p s : str) : option str :=
  match p, s with
  | [], _ => Some s
  | x :: p', y :: s' => if N.eqb x y then after_prefix p' s' else None
  | _ :: _, [] => None
  end.

(** The start of the payload, through the start tag of the script element,
    and its end after the end tag the f-string wrote. *)
Definition SCRIPT_OPEN : str := [NL] ++ u"    <script>".
Definition PAYLOAD_TAIL : str := [NL] ++ u"    ".

(** The HTML side: the first end tag of the script element is the one the
    f-string wrote, so that the script is the whole text up to it. *)
Definition script_intact (text : str) : bool :=
  match after_prefix SCRIPT_OPEN (text_to_speech text) with
  | Some content =>
      match script_end ScriptData content with
      | Some rest => PyStr.eqb rest PAYLOAD_TAIL
      | None => false
      end
  | None => false
  end.

(** The payload is well formed when it is so on both sides. *)
Definition payload_well_formed (text : str) : bool :=
  literal_closed text && script_intact text.

(** ** The session controller: the Streamlit script *)

Record session_state := {
  messages : list message;
  api_key : str;
  voice_enabled : bool
}.

(** [st.session_state] as the first run of a session initialises it. *)
Definition initial_session : session_state :=
  {| messages := []; api_key := []; voice_enabled := false |}.

(** What a run of the script does to the outside, in order. *)
Inductive effect :=
| Post (r : request)                 (* requests.post *)
| Html (payload : str)               (* st.components.v1.html *)
| StError (text : pyval)             (* st.error in the test-connection box *)
| StSuccess (text : str)             (* st.success in the test-connection box *)
| Store (ms : list message).         (* st.session_state.messages after a write *)

(** [net n] is how the network answers the POST issued after [n] earlier
    ones. *)
Definition network := nat -> request -> post_outcome.

Record world := {
  ss : session_state;
  trace : list effect;
  calls : nat
}.

(** A run goes on, asks for a rerun ([st.rerun()]), or dies on an exception
    nothing catches. *)
Inductive flow (A : Type) :=
| Next (a : A)
| Rerun
| Uncaught (e : exn).
Arguments Next {A} a.
Arguments Rerun {A}.
Arguments Uncaught {A} e.

Definition script (A : Type) := world -> flow A * world.

Definition ret {A} (a : A) : script A := fun w => (Next a, w).

Definition seq {A B} (m : script A) (k : A -> script B) : script B :=
  fun w =>
    match m w with
    | (Next a, w') => k a w'
    | (Rerun, w') => (Rerun, w')
    | (Uncaught e, w') => (Uncaught e, w')
    end.

Notation "x <~ m ;;; k" := (seq m (fun x => k))
  (at level 61, m at next level, right associativity).
Notation "m ;;; k" := (seq m (fun _ => k))
  (at level 61, right associativity).

Definition emit (e : effect) : script unit :=
  fun w => (Next tt, {| ss := ss w; trace := trace w ++ [e]; calls := calls w |}).

Definition get_session : script session_state := fun w => (Next (ss w), w).

Definition set_messages (ms : list message) : script unit :=
  fun w =>
    (Next tt,
     {| ss := {| messages := ms; api_key := api_key (ss w);
                 voice_enabled := voice_enabled (ss w) |};
        trace := trace w ++ [Store ms]; calls := calls w |}).

(** [st.session_state.messages.append(m)] *)
Definition append_message (m : message) : script unit :=
  fun w => set_messages (messages (ss w) ++ [m]) w.

Definition set_api_key (k : str) : script unit :=
  fun w =>
    (Next tt,
     {| ss := {| messages := messages (ss w); api_key := k;
                 voice_enabled := voice_enabled (ss w) |};
        trace := trace w; calls := calls w |}).

Definition set_voice_enabled (b : bool) : script unit :=
  fun w =>
    (Next tt,
     {| ss := {| messages := messages (ss w); api_key := api_key (ss w);
                 voice_enabled := b |};
        trace := trace w; calls := calls w |}).

Definition st_rerun {A} : script A := fun w => (Rerun, w).

Definition raise {A} (e : exn) : script A := fun w => (Uncaught e, w).

Definition lift {A} (r : result A) : script A :=
  match r with
  | Val a => ret a
  | Exc e => raise e
  end.

(** A call of the client from the script: its requests go to the network in
    turn, an exception it lets through ends the run. *)
Definition call_client (net : network) (msgs : list message) (key : str)
  : script pyval :=
  fun w =>
    let '(reqs, r) := get_deepseek_response (net (calls w)) msgs key in
    lift r {| ss := ss w;
              trace := trace w ++ map Post reqs;
              calls := (calls w + List.length reqs)%nat |}.

(** The widgets of one run: the key field, the voice checkbox, and the one
    control, if any, whose action started the run. *)
Inductive trigger :=
| NoTrigger
| ClearClick
| TestClick
| SpeakClick (idx : nat)
| ChatInput (user_input : str)
| QuickClick (column : nat).

Record event := {
  api_key_input : str;
  voice_checkbox : bool;
  fired : trigger
}.

Definition user_turn (text : str) : message :=
  {| role := u"user"; content := PStr text |}.

Definition assistant_turn (reply : pyval) : message :=
  {| role := u"assistant"; content := reply |}.

Definition test_msg : list message :=
  [user_turn (u"Say 'API connection successful' in 5 words or less")].

Definition QUICK_ACTIONS : list str :=
  [u"Give me tips for better sleep";
   u"How to eat healthier?";
   u"What exercises should beginners do?";
   u"How to manage stress?"].

(** Sidebar: key field and voice checkbox. *)
Definition sidebar_settings (ev : event) : script unit :=
  (if truthy (api_key_input ev) then set_api_key (strip (api_key_input ev))
   else ret tt) ;;;
  set_voice_enabled (voice_checkbox ev).

(** Sidebar: the Clear Chat History button. *)
Definition clear_button (ev : event) : script unit :=
  match fired ev with
  | ClearClick => set_messages [] ;;; st_rerun
  | _ => ret tt
  end.

(** Sidebar: the Test Connection button. *)
Definition test_button (net : network) (ev : event) : script unit :=
  match fired ev with
  | TestClick =>
      s <~ get_session ;;;
      if truthy (api_key s) then
        response <~ call_client net test_msg (api_key s) ;;;
        has_cross <~ lift (py_contains CROSS response) ;;;
        failed <~ (if has_cross then ret true
                   else lift (py_contains (u"Error") response)) ;;;
        if failed then emit (StError response)
        else emit (StSuccess (CHECK_MARK ++ u" Connection successful!"))
      else emit (StError (PStr (u"Please enter API key first")))
  | _ => ret tt
  end.

(** [text_to_speech(content)] on whatever a message holds: [.replace] exists
    on strings only. *)
Definition speak (v : pyval) : script unit :=
  match v with
  | PStr text => emit (Html (text_to_speech text))
  | _ => raise (AttributeError (u"object has no attribute 'replace'"))
  end.

(** The transcript display: a speak button beside every turn whose role is
    not "user". *)
Definition speak_buttons (ev : event) : script unit :=
  match fired ev with
  | SpeakClick idx =>
      s <~ get_session ;;;
      match nth_error (messages s) idx with
      | Some m =>
          if PyStr.eqb (role m) (u"user") then ret tt else speak (content m)
      | None => ret tt
      end
  | _ => ret tt
  end.

(** [bot_response.startswith(CROSS)] *)
Definition py_startswith_cross (v : pyval) : result bool :=
  match v with
  | PStr s => Val (startswith s CROSS)
  | _ => Exc (AttributeError (u"object has no attribute 'startswith'"))
  end.

(** The chat input, present only while a key is stored. *)
Definition chat_input (net : network) (ev : event) : script unit :=
  s <~ get_session ;;;
  if truthy (api_key s) then
    match fired ev with
    | ChatInput user_input =>
        if truthy user_input then
          append_message (user_turn user_input) ;;;
          s1 <~ get_session ;;;
          bot_response <~ call_client net (messages s1) (api_key s1) ;;;
          append_message (assistant_turn bot_response) ;;;
          s2 <~ get_session ;;;
          (if voice_enabled s2 then
             is_error <~ lift (py_startswith_cross bot_response) ;;;
             if negb is_error then speak bot_response else ret tt
           else ret tt) ;;;
          st_rerun
        else ret tt
    | _ => ret tt
    end
  else ret tt.

(** The four quick action buttons. *)
Definition quick_actions (ev : event) : script unit :=
  match fired ev with
  | QuickClick column =>
      match nth_error QUICK_ACTIONS column with
      | Some question => append_message (user_turn question) ;;; st_rerun
      | None => ret tt
      end
  | _ => ret tt
  end.

(** One execution of the script, top to bottom. *)
Definition script_body (net : network) (ev : event) : script unit :=
  sidebar_settings ev ;;;
  clear_button ev ;;;
  test_button net ev ;;;
  speak_buttons ev ;;;
  chat_input net ev ;;;
  quick_actions ev.

(** What one user action does: the run it starts and, when that run calls
    [st.rerun()], the run that follows with the same widget values and no
    control fired. *)
Definition idle (ev : event) : event :=
  {| api_key_input := api_key_input ev;
     voice_checkbox := voice_checkbox ev;
     fired := NoTrigger |}.

Definition handle (net : network) (ev : event) (w : world) : world :=
  match script_body net ev w with
  | (Rerun, w') => snd (script_body net (idle ev) w')
  | (_, w') => w'
  end.

(** A session: the actions of the user, one after the other. *)
Fixpoint session (net : network) (evs : list event) (w : world) : world :=
  match evs with
  | [] => w
  | ev :: evs' => session net evs' (handle net ev w)
  end.

Definition initial_world : world :=
  {| ss := initial_session; trace := []; calls := 0%nat |}.

(** [len(st.session_state.messages)], the Messages metric. *)
Definition count (w : world) : nat := List.length (messages (ss w)).

(** ** Vocabulary of the statements *)

(** What the client makes of an answer of the network. *)
Definition classify (o : post_outcome) : result pyval := try_except (try_block o).

(** [r] with another status code. *)
Definition with_status (s : Z) (r : response) : response :=
  {| status_code := s; reason := reason r; resp_url := resp_url r; json := json r |}.

(** A response with status 200 whose body decodes as [j] does. *)
Definition ok_response (j : result pyval) : response :=
  {| status_code := 200; reason := u"OK"; resp_url := url; json := j |}.

(** [{"choices":[{"message":{"content":"Drink water."}}]}], decoded. *)
Definition DRINK_WATER : pyval :=
  PDict [(u"choices",
          PList [PDict [(u"message",
                         PDict [(u"content", PStr (u"Drink water."))])]])].

(** The status codes the client tests for by name. *)
Definition special_status (s : Z) : Prop := s = 401 \/ s = 429 \/ s = 500.

(** The shape the client expects of a decoded body:
    [{"choices": [{"message": {"content": v}}, ...], ...}]. *)
Definition first_choice_content (body : pyval) (v : pyval) : Prop :=
  exists d fd md rest,
    body = PDict d /\
    assoc (u"choices") d = Some (PList (PDict fd :: rest)) /\
    assoc (u"message") fd = Some (PDict md) /\
    assoc (u"content") md = Some v.


(** What [lstrip] returns does not start with a blank. *)
Definition starts_clean (s : str) : Prop :=
  match s with
  | [] => True
  | c :: _ => isspace c = false
  end.

(** The key in the store once the sidebar has read the key field. *)
Definition stored_key (ev : event) (w : world) : str :=
  if truthy (api_key_input ev) then strip (api_key_input ev) else api_key (ss w).

(** The world once the sidebar has read its two widgets. *)
Definition after_sidebar (ev : event) (w : world) : world :=
  {| ss := {| messages := messages (ss w);
              api_key := stored_key ev w;
              voice_enabled := voice_checkbox ev |};
     trace := trace w;
     calls := calls w |}.

(** What a Test Connection run may do to the outside: POST the probe built
    from [test_msg] and the stored key, and fill the status box.  It neither
    writes the store nor speaks. *)
Definition probe_effect (key : str) (e : effect) : Prop :=
  match e with
  | Post r => r = build_request test_msg key
  | StError _ | StSuccess _ => True
  | Html _ | Store _ => False
  end.

(** What the chat handler hands to the browser after a reply. *)
Definition spoken (voice : bool) (reply : pyval) : list effect :=
  match reply with
  | PStr s => if voice && negb (startswith s CROSS) then [Html (text_to_speech s)] else []
  | _ => []
  end.

(** The world a chat submission leaves, by what the client did: the user
    turn is stored, the requests go out, and when the client returned, its
    reply is stored as the assistant turn and possibly spoken. *)
Definition after_chat (w : world) (text : str) (reqs : list request)
    (r : result pyval) : world :=
  let asked := messages (ss w) ++ [user_turn text] in
  match r with
  | Val reply =>
      {| ss := {| messages := asked ++ [assistant_turn reply];
                  api_key := api_key (ss w);
                  voice_enabled := voice_enabled (ss w) |};
         trace := trace w ++ [Store asked] ++ map Post reqs
                  ++ [Store (asked ++ [assistant_turn reply])]
                  ++ spoken (voice_enabled (ss w)) reply;
         calls := (calls w + List.length reqs)%nat |}
  | Exc _ =>
      {| ss := {| messages := asked;
                  api_key := api_key (ss w);
                  voice_enabled := voice_enabled (ss w) |};
         trace := trace w ++ [Store asked] ++ map Post reqs;
         calls := (calls w + List.length reqs)%nat |}
  end.

(** The roles the script stores. *)
Definition role_ok (m : message) : Prop :=
  role m = u"user" \/ role m = u"assistant".

(** What a click on the speak button beside a turn hands to the browser. *)
Definition spoken_turn (turn : option message) : list effect :=
  match turn with
  | Some m =>
      if PyStr.eqb (role m) (u"user") then []
      else match content m with
           | PStr s => [Html (text_to_speech s)]
           | _ => []
           end
  | None => []
  end.

(** A chat submission, as an action of the user. *)
Definition chat_event (k : str) (voice : bool) (text : str) : event :=
  {| api_key_input := k; voice_checkbox := voice; fired := ChatInput text |}.

(** The worlds a session can be in. *)
Definition reachable (w : world) : Prop :=
  exists net evs, w = session net evs initial_world.

(** A character a JavaScript template literal does not take as it is. *)
Definition template_special (c : N) : bool :=
  N.eqb c BACKTICK || N.eqb c BACKSLASH || N.eqb c 36.

(** A character the payload does not take as it is: those, and the
    less-than sign, with which every HTML tag starts. *)
Definition payload_special (c : N) : bool :=
  template_special c || N.eqb c LESS_THAN.

(** The script between the start tag and the text. *)
Definition JS_HEAD : str :=
  [NL] ++ u"    function speak() {"
  ++ [NL] ++ u"        const text = `".

Definition is_post (e : effect) : bool :=
  match e with Post _ => true | _ => false end.

(** The number of requests among some effects. *)
Definition posts (es : list effect) : nat := List.length (filter is_post es).

(** The controls whose handlers call the client. *)
Definition asks_network (t : trigger) : bool :=
  match t with
  | ChatInput _ | TestClick => true
  | _ => false
  end.

(** What one run leaves, whatever control fired: the settings of the
    sidebar, a longer trace with at most one more request, and a transcript
    that is either emptied by Clear or extended by at most two turns. *)
Record run_summary (ev : event) (w w' : world) : Prop := {
  run_key : api_key (ss w') = stored_key ev w;
  run_voice : voice_enabled (ss w') = voice_checkbox ev;
  run_trace : exists tail, trace w' = trace w ++ tail /\
                           calls w' = (calls w + posts tail)%nat;
  run_calls : (calls w <= calls w' <= calls w + 1)%nat;
  run_quiet : asks_network (fired ev) = false -> calls w' = calls w;
  run_messages :
    (fired ev = ClearClick /\ messages (ss w') = []) \/
    (fired ev <> ClearClick /\
     exists extra, messages (ss w') = messages (ss w) ++ extra /\
                   (List.length extra <= 2)%nat /\ Forall role_ok extra)
}.

(** The start of every message the client writes itself. *)
Definition marked (s : str) : bool :=
  startswith s CROSS || startswith s WARNING
  || startswith s STOPWATCH || startswith s GLOBE.

(** The network lets the client return on every request. *)
Definition answers (net : network) : Prop :=
  forall n req, exists v, classify (net n req) = Val v.

(** The turns of a conversation, question by question. *)
Definition exchanges (asked : list (bool * str)) (replies : list pyval) : list message :=
  flat_map (fun '((_, text), reply) => [user_turn text; assistant_turn reply])
           (combine asked replies).

(** [replied net key n sofar asked replies]: the [replies] are what the
    client returns, in one request each, on the questions [asked] put one
    after the other, the first as request number [n] on the transcript
    [sofar], each later one on the transcript extended by the question and
    the reply before it. *)
Inductive replied (net : network) (key : str) :
  nat -> list message -> list (bool * str) -> list pyval -> Prop :=
| replied_nil (n : nat) (sofar : list message) : replied net key n sofar [] []
| replied_cons (n : nat) (sofar : list message) (voice : bool) (text : str)
    (asked : list (bool * str)) (reply : pyval) (replies : list pyval) :
    get_deepseek_response (net n) (sofar ++ [user_turn text]) key
    = ([build_request (sofar ++ [user_turn text]) key], Val reply) ->
    replied net key (S n) (sofar ++ [user_turn text; assistant_turn reply])
      asked replies ->
    replied net key n sofar ((voice, text) :: asked) (reply :: replies).

(** Reading a decoded body either ends in the format-error message, or in
    the content of the first choice, or in one of three exceptions. *)
Inductive body_outcome (body : pyval) : result pyval -> Prop :=
| body_format : body_outcome body (Val (PStr MSG_FORMAT))
| body_content (v : pyval) :
    first_choice_content body v -> body_outcome body (Val v)
| body_key_error (m : str) : body_outcome body (Exc (KeyError m))
| body_index_error (m : str) : body_outcome body (Exc (IndexError m))
| body_type_error (m : str) : body_outcome body (Exc (TypeError m)).

(** * Properties *)

(** ** Strings *)

Section StringFacts.

Lemma eqb_refl (s : str) : PyStr.eqb s s = true.
Proof.
  induction s as [|c s IH]; simpl; [reflexivity|].
  now rewrite N.eqb_refl, IH.
Qed.

Lemma eqb_eq (a b : str) : PyStr.eqb a b = true <-> a = b.
Proof.
  split; [|intros ->; apply eqb_refl].
  revert b; induction a as [|x a IH]; intros [|y b]; simpl; try discriminate; auto.
  intros H; apply andb_true_iff in H as [Hx Hab].
  apply N.eqb_eq in Hx; subst; f_equal; auto.
Qed.

Lemma eqb_nil (s : str) : PyStr.eqb s [] = negb (truthy s).
Proof. now destruct s. Qed.

Lemma startswith_app (p s : str) : startswith (p ++ s) p = true.
Proof.
  induction p as [|c p IH]; simpl; [reflexivity|].
  now rewrite N.eqb_refl, IH.
Qed.

Lemma lstrip_blank (s : str) : forallb isspace s = true -> lstrip s = [].
Proof.
  induction s as [|c s IH]; simpl; [reflexivity|].
  intros H; apply andb_true_iff in H as [Hc Hs].
  rewrite Hc; auto.
Qed.

(** [lstrip] only removes a prefix. *)
Lemma lstrip_suffix (s : str) : exists p, s = p ++ lstrip s.
Proof.
  induction s as [|c s [p Hp]]; simpl.
  - now exists [].
  - destruct (isspace c).
    + exists (c :: p); simpl; now f_equal.
    + now exists [].
Qed.

Lemma lstrip_clean (s : str) : starts_clean (lstrip s).
Proof.
  induction s as [|c s IH]; simpl; [exact I|].
  destruct (isspace c) eqn:E; [exact IH|exact E].
Qed.

Lemma lstrip_fixed (s : str) : starts_clean s -> lstrip s = s.
Proof.
  destruct s as [|c s]; simpl; [reflexivity|].
  now intros ->.
Qed.

Lemma lstrip_idem (s : str) : lstrip (lstrip s) = lstrip s.
Proof. apply lstrip_fixed, lstrip_clean. Qed.

(** [rstrip] only removes a suffix. *)
Lemma rstrip_prefix (s : str) : exists q, s = rstrip s ++ q.
Proof.
  unfold rstrip.
  destruct (lstrip_suffix (rev s)) as [p Hp].
  exists (rev p).
  rewrite <- rev_app_distr, <- Hp.
  symmetry; apply rev_involutive.
Qed.

Lemma rstrip_clean (s : str) : starts_clean s -> starts_clean (rstrip s).
Proof.
  intros Hs.
  destruct (rstrip_prefix s) as [q Hq].
  destruct (rstrip s) as [|c t]; [exact I|].
  rewrite Hq in Hs; exact Hs.
Qed.

Lemma rstrip_idem (s : str) : rstrip (rstrip s) = rstrip s.
Proof.
  unfold rstrip.
  now rewrite rev_involutive, lstrip_idem.
Qed.

Lemma strip_idem (s : str) : strip (strip s) = strip s.
Proof.
  unfold strip.
  rewrite (lstrip_fixed (rstrip (lstrip s))).
  - apply rstrip_idem.
  - apply rstrip_clean, lstrip_clean.
Qed.

Lemma strip_blank (s : str) : forallb isspace s = true -> strip s = [].
Proof.
  intros H; unfold strip; now rewrite (lstrip_blank s H).
Qed.

Lemma strip_nil : strip [] = [].
Proof. reflexivity. Qed.

End StringFacts.

(** ** The completion client *)

Section Client.

Variable post : request -> post_outcome.
Variable msgs : list message.

Lemma client_without_key (k : str) :
  strip k = [] ->
  get_deepseek_response post msgs k = ([], Val (PStr MSG_EMPTY_KEY)).
Proof.
  intros H; unfold get_deepseek_response.
  now rewrite H, orb_true_r.
Qed.

Lemma client_with_key (k : str) :
  strip k <> [] ->
  get_deepseek_response post msgs k =
  ([build_request msgs k], classify (post (build_request msgs k))).
Proof.
  intros H; unfold get_deepseek_response.
  destruct k as [|c k]; [now elim H|].
  destruct (strip (c :: k)) eqn:E; [now elim H|].
  reflexivity.
Qed.

End Client.

Lemma truthy_app_r (a b : str) : truthy b = true -> truthy (a ++ b) = true.
Proof. destruct a; simpl; auto. Qed.

Lemma http_error_msg_4xx_5xx (r : response) :
  400 <= status_code r < 600 ->
  truthy (http_error_msg r) = true /\
  startswith (http_error_msg r) (of_Z (status_code r)) = true.
Proof.
  intros H; unfold http_error_msg.
  destruct (Z.ltb_spec (status_code r) 500) as [Hlt|Hge].
  - replace (400 <=? status_code r) with true by (symmetry; apply Z.leb_le; lia).
    simpl andb; cbv iota.
    split; [apply truthy_app_r; reflexivity|apply startswith_app].
  - rewrite andb_false_r.
    replace (500 <=? status_code r) with true by (symmetry; apply Z.leb_le; lia).
    replace (status_code r <? 600) with true by (symmetry; apply Z.ltb_lt; lia).
    simpl andb; cbv iota.
    split; [apply truthy_app_r; reflexivity|apply startswith_app].
Qed.

Lemma http_error_msg_other (r : response) :
  ~ 400 <= status_code r < 600 -> http_error_msg r = [].
Proof.
  intros H; unfold http_error_msg.
  destruct (Z.leb_spec 400 (status_code r)), (Z.ltb_spec (status_code r) 500),
    (Z.leb_spec 500 (status_code r)), (Z.ltb_spec (status_code r) 600);
    simpl; try reflexivity; lia.
Qed.

Lemma classify_401 (r : response) :
  status_code r = 401 -> classify (Responds r) = Val (PStr MSG_AUTH).
Proof. intros H; unfold classify, try_block; now rewrite H. Qed.

Lemma classify_429 (r : response) :
  status_code r = 429 -> classify (Responds r) = Val (PStr MSG_RATE_LIMIT).
Proof. intros H; unfold classify, try_block; now rewrite H. Qed.

Lemma classify_500 (r : response) :
  status_code r = 500 -> classify (Responds r) = Val (PStr MSG_SERVER).
Proof. intros H; unfold classify, try_block; now rewrite H. Qed.

Lemma not_special (s : Z) :
  ~ special_status s ->
  (s =? 401) = false /\ (s =? 429) = false /\ (s =? 500) = false.
Proof.
  unfold special_status; intros H.
  repeat split; apply Z.eqb_neq; intros ->; tauto.
Qed.

Lemma classify_http_error (r : response) :
  400 <= status_code r < 600 -> ~ special_status (status_code r) ->
  classify (Responds r) = Val (PStr (MSG_REQUEST (http_error_msg r))).
Proof.
  intros Hr Hs.
  destruct (not_special _ Hs) as (E1 & E2 & E3).
  destruct (http_error_msg_4xx_5xx r Hr) as [Ht _].
  unfold classify, try_block, raise_for_status.
  now rewrite E1, E2, E3, Ht.
Qed.

(** Below 400 and from 600 on, [raise_for_status] lets the response through
    and the status plays no further part. *)
Lemma classify_status_ignored (r : response) :
  ~ 400 <= status_code r < 600 ->
  classify (Responds r) = classify (Responds (with_status 200 r)).
Proof.
  intros Hr.
  assert (Hs : ~ special_status (status_code r)) by (unfold special_status; lia).
  destruct (not_special _ Hs) as (E1 & E2 & E3).
  unfold classify, try_block, raise_for_status.
  rewrite E1, E2, E3, (http_error_msg_other r Hr).
  reflexivity.
Qed.

Section Body.

Variable r : response.
Hypothesis passes : ~ 400 <= status_code r < 600.

Ltac on_body :=
  rewrite (classify_status_ignored r passes);
  unfold classify, try_block, with_status; cbn [status_code json Z.eqb Pos.eqb];
  unfold raise_for_status; cbn -[assoc MSG_FORMAT MSG_PARSE MSG_REQUEST lit].



Lemma classify_empty_choices (d : list (str * pyval)) :
  json r = Val (PDict d) -> assoc (u"choices") d = Some (PList []) ->
  classify (Responds r) = Val (PStr MSG_FORMAT).
Proof. intros Hj Hc; on_body; rewrite Hj; cbn -[assoc MSG_FORMAT lit]; now rewrite Hc. Qed.

Lemma classify_first_choice (body v : pyval) :
  json r = Val body -> first_choice_content body v ->
  classify (Responds r) = Val v.
Proof.
  intros Hj (d & fd & md & rest & -> & Hc & Hm & Hv).
  on_body; rewrite Hj; cbn -[assoc lit MSG_FORMAT]; rewrite Hc.
  cbn -[assoc lit MSG_FORMAT].
  rewrite Hm; cbn -[assoc lit]; now rewrite Hv.
Qed.



End Body.

(** C4: a credential that is empty or made of whitespace only gets the
    empty-key message at once, and no request is issued. *)
Theorem blank_credential_no_call (post : request -> post_outcome)
    (msgs : list message) (k : str) :
  forallb isspace k = true ->
  get_deepseek_response post msgs k = ([], Val (PStr MSG_EMPTY_KEY)) /\
  List.length (fst (get_deepseek_response post msgs k)) = 0%nat.
Proof.
  intros H.
  rewrite (client_without_key post msgs k (strip_blank k H)).
  split; reflexivity.
Qed.

Lemma blank_credential_no_call_witness :
  get_deepseek_response (fun _ => Responds (ok_response (Val DRINK_WATER)))
    [user_turn (u"hello")] [SPACE; 9%N; 160%N; NL]
  = ([], Val (PStr MSG_EMPTY_KEY)).
Proof.
  apply (blank_credential_no_call _ [user_turn (u"hello")] [SPACE; 9%N; 160%N; NL]).
  reflexivity.
Defined.

(** C10: the client reads the credential only through [strip]: a key and
    its stripped form give the same requests and the same result. *)
Theorem credential_padding_irrelevant (post : request -> post_outcome)
    (msgs : list message) (k : str) :
  get_deepseek_response post msgs k = get_deepseek_response post msgs (strip k).
Proof.
  destruct (strip k) as [|c s] eqn:E.
  - rewrite (client_without_key post msgs k E).
    symmetry; apply client_without_key; reflexivity.
  - assert (Hk : strip k <> []) by (rewrite E; discriminate).
    assert (Hs : strip (c :: s) <> []) by (rewrite <- E, strip_idem, E; discriminate).
    rewrite (client_with_key post msgs k Hk), (client_with_key post msgs _ Hs).
    unfold build_request.
    now rewrite <- E, strip_idem.
Qed.

(** C5: on a 2xx response whose decoded body has a non-empty [choices] list
    the client returns the content of the first choice's message (the string
    "Drink water." on the payload of the specification); on an empty
    [choices] list it returns the format-error message. *)
Theorem first_choice_returned (post : request -> post_outcome)
    (msgs : list message) (k : str) (r : response) :
  strip k <> [] ->
  post (build_request msgs k) = Responds r ->
  200 <= status_code r < 300 ->
  (forall body v, json r = Val body -> first_choice_content body v ->
     get_deepseek_response post msgs k = ([build_request msgs k], Val v)) /\
  (json r = Val DRINK_WATER ->
     get_deepseek_response post msgs k =
     ([build_request msgs k], Val (PStr (u"Drink water.")))) /\
  (forall d, json r = Val (PDict d) -> assoc (u"choices") d = Some (PList []) ->
     get_deepseek_response post msgs k =
     ([build_request msgs k], Val (PStr MSG_FORMAT))).
Proof.
  intros Hk Hp Hs.
  assert (passes : ~ 400 <= status_code r < 600) by lia.
  rewrite (client_with_key post msgs k Hk), Hp.
  repeat split.
  - intros body v Hj Hc; f_equal; now apply (classify_first_choice r passes body v).
  - intros Hj; f_equal.
    apply (classify_first_choice r passes DRINK_WATER); [exact Hj|].
    now exists [(u"choices", PList [PDict [(u"message", PDict [(u"content", PStr (u"Drink water."))])]])],
      [(u"message", PDict [(u"content", PStr (u"Drink water."))])],
      [(u"content", PStr (u"Drink water."))], [].
  - intros d Hj Hc; f_equal; now apply (classify_empty_choices r passes d).
Qed.

Lemma first_choice_returned_witness :
  get_deepseek_response (fun _ => Responds (ok_response (Val DRINK_WATER)))
    [user_turn (u"How much water should I drink daily?")] (u"sk-test")
  = ([build_request [user_turn (u"How much water should I drink daily?")] (u"sk-test")],
     Val (PStr (u"Drink water."))).
Proof.
  apply (first_choice_returned (fun _ => Responds (ok_response (Val DRINK_WATER)))
           [user_turn (u"How much water should I drink daily?")] (u"sk-test")
           (ok_response (Val DRINK_WATER))).
  - vm_compute; discriminate.
  - reflexivity.
  - simpl; lia.
  - reflexivity.
Defined.

(** C6: a 200 response whose body is the JSON value [null] makes
    ['choices' in result] raise a [TypeError], which no [except] clause of
    the client names: the exception leaves [get_deepseek_response].  A
    numeric [content] is returned as it is, so the value returned need not be
    a string either. *)
Theorem type_error_escapes_client :
  snd (get_deepseek_response (fun _ => Responds (ok_response (Val PNone)))
         [user_turn (u"hello")] (u"sk-test"))
  = Exc (TypeError (u"argument is not iterable")) /\
  snd (get_deepseek_response
         (fun _ => Responds (ok_response (Val (PDict [(u"choices", PList [PNone])]))))
         [user_turn (u"hello")] (u"sk-test"))
  = Exc (TypeError (u"object is not subscriptable")) /\
  snd (get_deepseek_response
         (fun _ => Responds (ok_response (Val
            (PDict [(u"choices",
                     PList [PDict [(u"message", PDict [(u"content", PInt 5)])]])]))))
         [user_turn (u"hello")] (u"sk-test"))
  = Val (PInt 5).
Proof. repeat split; reflexivity. Qed.




(** ** The speech trigger *)

(** Double quotes and line breaks are the characters [clean_text] deals
    with: a text with both still gives a well-formed payload. *)
Example quotes_and_newlines_handled :
  payload_well_formed (u"Drink " ++ [DQUOTE] ++ u"plenty" ++ [DQUOTE; NL] ++ u"of water.") = true.
Proof. reflexivity. Qed.

(** C7: the text is interpolated between backticks, and [clean_text] leaves
    backticks (and backslashes, and [${]) as they are.  On a reply that
    quotes a word in backticks the literal ends at the first of them and the
    rest of the reply is read as script: the payload is not well formed. *)
Theorem backtick_breaks_payload :
  clean_text (u"Rest and apply `ice` daily.") = u"Rest and apply `ice` daily." /\
  template_rest (clean_text (u"Rest and apply `ice` daily.") ++ [BACKTICK] ++ JS_AFTER)
  = Some (u"ice` daily." ++ [BACKTICK] ++ JS_AFTER) /\
  payload_well_formed (u"Rest and apply `ice` daily.") = false /\
  payload_well_formed (u"50% of C:\") = false /\
  payload_well_formed (u"costs ${price}") = false.
Proof. repeat split; reflexivity. Qed.

(** ** The session controller *)

Lemma sidebar_settings_spec (ev : event) (w : world) :
  sidebar_settings ev w = (Next tt, after_sidebar ev w).
Proof.
  unfold sidebar_settings, after_sidebar, stored_key, seq.
  destruct (truthy (api_key_input ev)); reflexivity.
Qed.

(** A run in which no control fired only refreshes the settings. *)
Lemma idle_run (net : network) (ev : event) (w : world) :
  fired ev = NoTrigger ->
  script_body net ev w = (Next tt, after_sidebar ev w).
Proof.
  intros H.
  unfold script_body, seq at 1.
  rewrite sidebar_settings_spec.
  unfold clear_button, test_button, speak_buttons, chat_input, quick_actions.
  rewrite H.
  unfold seq, ret, get_session.
  destruct (truthy (api_key (ss (after_sidebar ev w)))); reflexivity.
Qed.

Lemma handle_rerun (net : network) (ev : event) (w w' : world) :
  script_body net ev w = (Rerun, w') ->
  handle net ev w = after_sidebar ev w'.
Proof.
  intros H; unfold handle; rewrite H.
  now rewrite (idle_run net (idle ev) w' eq_refl).
Qed.

Lemma handle_next (net : network) (ev : event) (w w' : world) :
  script_body net ev w = (Next tt, w') -> handle net ev w = w'.
Proof. intros H; unfold handle; now rewrite H. Qed.

Lemma handle_uncaught (net : network) (ev : event) (w w' : world) (e : exn) :
  script_body net ev w = (Uncaught e, w') -> handle net ev w = w'.
Proof. intros H; unfold handle; now rewrite H. Qed.

(** The run started by the Clear Chat History button. *)
Lemma clear_run (net : network) (ev : event) (w : world) :
  fired ev = ClearClick ->
  script_body net ev w =
  (Rerun, {| ss := {| messages := []; api_key := stored_key ev w;
                      voice_enabled := voice_checkbox ev |};
             trace := trace w ++ [Store []];
             calls := calls w |}).
Proof.
  intros H.
  unfold script_body, seq at 1.
  rewrite sidebar_settings_spec.
  unfold seq at 1, clear_button; rewrite H.
  reflexivity.
Qed.

(** C9: whatever the transcript holds, the Clear Chat History button leaves
    it empty, and the only write to the store during the action is the one
    that installs the empty list: no partly cleared transcript is ever
    stored. *)
Theorem clear_empties_transcript (net : network) (k : str) (v : bool) (w : world) :
  let w' := handle net {| api_key_input := k; voice_checkbox := v; fired := ClearClick |} w in
  count w' = 0%nat /\
  messages (ss w') = [] /\
  trace w' = trace w ++ [Store []] /\
  calls w' = calls w.
Proof.
  set (ev := {| api_key_input := k; voice_checkbox := v; fired := ClearClick |}).
  cbv zeta.
  rewrite (handle_rerun net ev w _ (clear_run net ev w eq_refl)).
  repeat split; reflexivity.
Qed.

Lemma client_cases (post : request -> post_outcome) (msgs : list message) (k : str) :
  (strip k = [] /\ get_deepseek_response post msgs k = ([], Val (PStr MSG_EMPTY_KEY)))
  \/ (strip k <> [] /\
      get_deepseek_response post msgs k =
      ([build_request msgs k], classify (post (build_request msgs k)))).
Proof.
  destruct (strip k) eqn:E.
  - left; split; [reflexivity|now apply client_without_key].
  - right; split; [discriminate|apply client_with_key; rewrite E; discriminate].
Qed.

Lemma handle_no_rerun (net : network) (ev : event) (w : world) :
  fst (script_body net ev w) <> Rerun ->
  handle net ev w = snd (script_body net ev w).
Proof.
  unfold handle; destruct (script_body net ev w) as [[a| |e] w']; simpl; congruence.
Qed.

(** The Test Connection handler on its own. *)
Lemma test_button_spec (net : network) (ev : event) (w : world) :
  fired ev = TestClick ->
  fst (test_button net ev w) <> Rerun /\
  ss (snd (test_button net ev w)) = ss w /\
  exists tail,
    trace (snd (test_button net ev w)) = trace w ++ tail /\
    Forall (probe_effect (api_key (ss w))) tail /\
    (strip (api_key (ss w)) <> [] ->
     exists rest, tail = Post (build_request test_msg (api_key (ss w))) :: rest).
Proof.
  intros H; unfold test_button; rewrite H.
  unfold seq, get_session, call_client.
  destruct (truthy (api_key (ss w))) eqn:Hk.
  - destruct (client_cases (net (calls w)) test_msg (api_key (ss w)))
      as [[Hs Hg]|[Hs Hg]]; rewrite Hg.
    + cbn. repeat split; try discriminate.
      exists [StError (PStr MSG_EMPTY_KEY)]; repeat split.
      * now rewrite app_nil_r.
      * repeat constructor.
      * intros Hn; now elim Hn.
    + destruct (classify (net (calls w) (build_request test_msg (api_key (ss w)))))
        as [reply|e]; cbn [lift ret raise map].
      * destruct (py_contains CROSS reply) as [[|]|e1]; cbn [lift ret raise];
          [|destruct (py_contains (u"Error") reply) as [[|]|e2]; cbn [lift ret raise]|];
          cbn [emit fst snd ss trace]; (repeat split; try discriminate);
          eexists; (split; [rewrite <- ?app_assoc; reflexivity|]);
          (split; [repeat constructor|intros _; eexists; reflexivity]).
      * cbn; repeat split; try discriminate.
        eexists; split; [reflexivity|]; split; [repeat constructor|intros _; eexists; reflexivity].
  - cbn; repeat split; try discriminate.
    eexists; split; [reflexivity|]; split; [repeat constructor|].
    destruct (api_key (ss w)); [intros Hn; now elim Hn|discriminate].
Qed.

(** The run started by the Test Connection button: after the settings, only
    the handler acts. *)
Lemma test_run (net : network) (ev : event) (w : world) :
  fired ev = TestClick ->
  script_body net ev w = test_button net ev (after_sidebar ev w).
Proof.
  intros H.
  unfold script_body, seq.
  rewrite sidebar_settings_spec.
  unfold clear_button, speak_buttons, chat_input, quick_actions; rewrite H.
  unfold seq, ret, get_session.
  destruct (test_button net ev (after_sidebar ev w)) as [[[]| |e] w2]; try reflexivity.
  destruct (truthy (api_key (ss w2))); reflexivity.
Qed.

(** C8: the Test Connection button sends the fixed probe [test_msg] (never
    the transcript) through the client and leaves
    [st.session_state.messages] as it was: what the run does to the outside
    is the probe's POST and the status box, and no write to the store. *)
Theorem test_connection_keeps_transcript (net : network) (k : str) (v : bool) (w : world) :
  let ev := {| api_key_input := k; voice_checkbox := v; fired := TestClick |} in
  let w' := handle net ev w in
  messages (ss w') = messages (ss w) /\
  exists tail,
    trace w' = trace w ++ tail /\
    Forall (probe_effect (stored_key ev w)) tail /\
    (strip (stored_key ev w) <> [] ->
     exists rest, tail = Post (build_request test_msg (stored_key ev w)) :: rest).
Proof.
  intros ev w'; subst w'.
  destruct (test_button_spec net ev (after_sidebar ev w) eq_refl)
    as (Hf & Hss & tail & Ht & HP & Hfirst).
  rewrite <- (test_run net ev w eq_refl) in Hf, Hss, Ht.
  rewrite (handle_no_rerun net ev w Hf).
  split; [now rewrite Hss|].
  exists tail; auto.
Qed.

Lemma test_connection_keeps_transcript_witness :
  let w := {| ss := {| messages := [user_turn (u"hello"); assistant_turn (PStr (u"Hi!"))];
                       api_key := u"sk-test"; voice_enabled := true |};
              trace := []; calls := 0%nat |} in
  let ev := {| api_key_input := u"sk-test"; voice_checkbox := true; fired := TestClick |} in
  messages (ss (handle (fun _ _ => Responds (ok_response (Val DRINK_WATER))) ev w))
  = [user_turn (u"hello"); assistant_turn (PStr (u"Hi!"))] /\
  exists rest,
    trace (handle (fun _ _ => Responds (ok_response (Val DRINK_WATER))) ev w)
    = Post (build_request test_msg (u"sk-test")) :: rest.
Proof.
  intros w ev.
  destruct (test_connection_keeps_transcript
              (fun _ _ => Responds (ok_response (Val DRINK_WATER)))
              (u"sk-test") true w) as (Hm & tail & Ht & _ & Hfirst).
  split; [exact Hm|].
  destruct Hfirst as [rest Hrest]; [vm_compute; discriminate|].
  exists rest. fold ev in Ht. rewrite Ht, Hrest. reflexivity.
Defined.

(** The run started by a chat submission: after the settings, only the chat
    handler acts. *)
Lemma chat_run (net : network) (ev : event) (w : world) (text : str) :
  fired ev = ChatInput text ->
  script_body net ev w = chat_input net ev (after_sidebar ev w).
Proof.
  intros H.
  unfold script_body, seq.
  rewrite sidebar_settings_spec.
  unfold clear_button, test_button, speak_buttons, quick_actions; rewrite H.
  unfold ret.
  destruct (chat_input net ev (after_sidebar ev w)) as [[[]| |e] w2]; reflexivity.
Qed.

Lemma chat_input_spec (net : network) (ev : event) (w : world) (text : str)
    (reqs : list request) (r : result pyval) :
  fired ev = ChatInput text ->
  truthy text = true ->
  truthy (api_key (ss w)) = true ->
  get_deepseek_response (net (calls w)) (messages (ss w) ++ [user_turn text])
    (api_key (ss w)) = (reqs, r) ->
  exists f, chat_input net ev w = (f, after_chat w text reqs r) /\
            (forall e, r = Exc e -> f = Uncaught e).
Proof.
  intros H Ht Hk Hg.
  unfold chat_input, seq, get_session.
  rewrite Hk, H, Ht.
  unfold append_message, set_messages, call_client.
  cbn [ss messages api_key voice_enabled trace calls].
  rewrite Hg.
  unfold after_chat.
  destruct r as [reply|e]; cbn [lift ret raise].
  - cbn [ss messages api_key voice_enabled trace calls].
    destruct (voice_enabled (ss w)).
    + destruct reply as [| | | |s| |];
        cbn [py_startswith_cross lift ret raise spoken andb];
        try (eexists; split; [|discriminate];
             now rewrite <- !app_assoc, ?app_nil_r).
      destruct (startswith s CROSS); cbn [negb speak emit st_rerun ret];
        cbn [ss messages api_key voice_enabled trace calls];
        (eexists; split; [|discriminate]; now rewrite <- !app_assoc, ?app_nil_r).
    + unfold ret, st_rerun.
      eexists; split; [|discriminate].
      destruct reply; cbn [spoken andb]; now rewrite <- !app_assoc, ?app_nil_r.
  - eexists; split; [|intros e' [= <-]; reflexivity].
    now rewrite <- !app_assoc.
Qed.

Lemma handle_chat (net : network) (ev : event) (w : world) (text : str)
    (reqs : list request) (r : result pyval) :
  fired ev = ChatInput text ->
  truthy text = true ->
  truthy (stored_key ev w) = true ->
  get_deepseek_response (net (calls w)) (messages (ss w) ++ [user_turn text])
    (stored_key ev w) = (reqs, r) ->
  let done := after_chat (after_sidebar ev w) text reqs r in
  messages (ss (handle net ev w)) = messages (ss done) /\
  trace (handle net ev w) = trace done /\
  calls (handle net ev w) = calls done.
Proof.
  intros H Ht Hk Hg done.
  destruct (chat_input_spec net ev (after_sidebar ev w) text reqs r H Ht Hk Hg)
    as (f & Hc & _).
  fold done in Hc.
  rewrite <- (chat_run net ev w text H) in Hc.
  destruct f as [[]| |e].
  - now rewrite (handle_next net ev w done Hc).
  - rewrite (handle_rerun net ev w done Hc); repeat split; reflexivity.
  - now rewrite (handle_uncaught net ev w done e Hc).
Qed.

(** The chat input does pair its turns: whenever the client returns, the
    transcript grows by the user turn and the assistant turn, in this
    order. *)
Lemma chat_submission_appends_pair (net : network) (ev : event) (w : world)
    (text : str) (reqs : list request) (reply : pyval) :
  fired ev = ChatInput text ->
  truthy text = true ->
  truthy (stored_key ev w) = true ->
  get_deepseek_response (net (calls w)) (messages (ss w) ++ [user_turn text])
    (stored_key ev w) = (reqs, Val reply) ->
  messages (ss (handle net ev w)) =
  messages (ss w) ++ [user_turn text; assistant_turn reply] /\
  count (handle net ev w) = (count w + 2)%nat.
Proof.
  intros H Ht Hk Hg.
  destruct (handle_chat net ev w text reqs (Val reply) H Ht Hk Hg) as (Hm & _).
  cbn [after_chat after_sidebar ss messages] in Hm.
  unfold count; rewrite Hm, <- app_assoc.
  split; [reflexivity|].
  rewrite !length_app; simpl; lia.
Qed.

(** C1: the quick action buttons append the user turn and rerun the script,
    and nothing in the script answers a turn that is already stored: after
    one click on Sleep Tips in a fresh session with a key, the transcript
    holds one message, a user turn, and no request has been issued.  The
    chat input leaves a lone user turn as well when the client lets an
    exception through. *)
Theorem quick_action_turn_unanswered (net : network) :
  let ev := {| api_key_input := u"sk-test"; voice_checkbox := false;
               fired := QuickClick 0 |} in
  let w' := session net [ev] initial_world in
  messages (ss w') = [user_turn (u"Give me tips for better sleep")] /\
  count w' = 1%nat /\
  calls w' = 0%nat /\
  trace w' = [Store [user_turn (u"Give me tips for better sleep")]] /\
  count (session (fun _ _ => Responds (ok_response (Val PNone)))
           [{| api_key_input := u"sk-test"; voice_checkbox := false;
               fired := ChatInput (u"hello") |}] initial_world) = 1%nat.
Proof. repeat split; reflexivity. Qed.

(** C2: the chat handler takes a reply for an error when it starts with the
    cross mark, and the rate-limit, timeout and connection messages start
    with other signs: with voice enabled each of them is handed to the speech
    trigger.  The Test Connection handler, which looks for the word "Error"
    as well, does report the timeout message as a failure. *)
Theorem classified_errors_are_spoken :
  let ev := {| api_key_input := u"sk-test"; voice_checkbox := true;
               fired := ChatInput (u"hello") |} in
  let asked := [user_turn (u"hello")] in
  let told (reply : str) :=
    [Store asked; Post (build_request asked (u"sk-test"));
     Store (asked ++ [assistant_turn (PStr reply)]);
     Html (text_to_speech reply)] in
  trace (handle (fun _ _ => PostRaises (ReadTimeout (u"Read timed out.")))
           ev initial_world) = told MSG_TIMEOUT /\
  trace (handle (fun _ _ => PostRaises (ConnectionError (u"Connection refused")))
           ev initial_world) = told MSG_CONNECTION /\
  trace (handle (fun _ _ => Responds (with_status 429 (ok_response (Val PNone))))
           ev initial_world) = told MSG_RATE_LIMIT /\
  trace (handle (fun _ _ => PostRaises (ReadTimeout (u"Read timed out.")))
           {| api_key_input := u"sk-test"; voice_checkbox := true; fired := TestClick |}
           initial_world)
  = [Post (build_request test_msg (u"sk-test")); StError (PStr MSG_TIMEOUT)].
Proof. repeat split; reflexivity. Qed.

(** The gate of the chat handler as it is written: nothing is spoken with
    voice disabled, nothing when the reply starts with the cross mark, and
    the reply, once, otherwise. *)
Lemma speech_gate (voice : bool) (s : str) :
  spoken voice (PStr s) =
  if voice then
    if startswith s CROSS then [] else [Html (text_to_speech s)]
  else [].
Proof.
  unfold spoken; destruct voice; cbn [andb]; [|reflexivity].
  now destruct (startswith s CROSS).
Qed.

(** ** Runs of the script, control by control *)

Lemma speak_run (net : network) (ev : event) (w : world) (idx : nat) :
  fired ev = SpeakClick idx ->
  script_body net ev w = speak_buttons ev (after_sidebar ev w).
Proof.
  intros H.
  unfold script_body, seq.
  rewrite sidebar_settings_spec.
  unfold clear_button, test_button, chat_input, quick_actions; rewrite H.
  unfold seq, ret, get_session.
  destruct (speak_buttons ev (after_sidebar ev w)) as [[[]| |e] w2]; try reflexivity.
  destruct (truthy (api_key (ss w2))); reflexivity.
Qed.

Lemma speak_buttons_spec (ev : event) (w : world) (idx : nat) :
  fired ev = SpeakClick idx ->
  ss (snd (speak_buttons ev w)) = ss w /\
  calls (snd (speak_buttons ev w)) = calls w /\
  trace (snd (speak_buttons ev w))
  = trace w ++ spoken_turn (nth_error (messages (ss w)) idx).
Proof.
  intros H; unfold speak_buttons, seq, get_session; rewrite H.
  unfold spoken_turn.
  destruct (nth_error (messages (ss w)) idx) as [m|]; cbn [ret fst snd];
    [|now rewrite app_nil_r].
  destruct (PyStr.eqb (role m) (u"user")); cbn [ret fst snd];
    [now rewrite app_nil_r|].
  destruct (content m); cbn; now rewrite ?app_nil_r.
Qed.

Lemma quick_run (net : network) (ev : event) (w : world) (column : nat) :
  fired ev = QuickClick column ->
  script_body net ev w = quick_actions ev (after_sidebar ev w).
Proof.
  intros H.
  unfold script_body, seq.
  rewrite sidebar_settings_spec.
  unfold clear_button, test_button, speak_buttons, chat_input; rewrite H.
  unfold seq, ret, get_session.
  destruct (truthy (api_key (ss (after_sidebar ev w))));
    destruct (quick_actions ev (after_sidebar ev w)) as [[[]| |e] w2]; reflexivity.
Qed.

Lemma quick_actions_spec (ev : event) (w : world) (column : nat) :
  fired ev = QuickClick column ->
  quick_actions ev w =
  match nth_error QUICK_ACTIONS column with
  | Some question =>
      (Rerun,
       {| ss := {| messages := messages (ss w) ++ [user_turn question];
                   api_key := api_key (ss w);
                   voice_enabled := voice_enabled (ss w) |};
          trace := trace w ++ [Store (messages (ss w) ++ [user_turn question])];
          calls := calls w |})
  | None => (Next tt, w)
  end.
Proof.
  intros H; unfold quick_actions; rewrite H.
  destruct (nth_error QUICK_ACTIONS column); reflexivity.
Qed.

(** The chat input does nothing without a stored key or without a text. *)
Lemma chat_input_closed (net : network) (ev : event) (w : world) (text : str) :
  fired ev = ChatInput text ->
  truthy (api_key (ss w)) && truthy text = false ->
  chat_input net ev w = (Next tt, w).
Proof.
  intros H Hc; unfold chat_input, seq, get_session; rewrite H.
  destruct (truthy (api_key (ss w))); [|reflexivity].
  cbn [andb] in Hc; now rewrite Hc.
Qed.

Lemma posts_app (a b : list effect) : posts (a ++ b) = (posts a + posts b)%nat.
Proof. unfold posts; now rewrite filter_app, length_app. Qed.

Lemma posts_map_Post (reqs : list request) : posts (map Post reqs) = List.length reqs.
Proof.
  unfold posts; induction reqs as [|r reqs IH]; simpl; [reflexivity|now rewrite IH].
Qed.

Lemma posts_spoken (voice : bool) (reply : pyval) : posts (spoken voice reply) = 0%nat.
Proof.
  destruct reply; try reflexivity; simpl.
  now destruct (voice && negb _).
Qed.

Lemma posts_spoken_turn (turn : option message) : posts (spoken_turn turn) = 0%nat.
Proof.
  destruct turn as [m|]; [|reflexivity]; simpl.
  destruct (PyStr.eqb (role m) _); [reflexivity|].
  now destruct (content m).
Qed.

Lemma test_button_posts (net : network) (ev : event) (w : world) :
  fired ev = TestClick ->
  exists tail,
    trace (snd (test_button net ev w)) = trace w ++ tail /\
    calls (snd (test_button net ev w)) = (calls w + posts tail)%nat /\
    (posts tail <= 1)%nat.
Proof.
  intros H; unfold test_button; rewrite H.
  unfold seq, get_session, call_client.
  destruct (truthy (api_key (ss w))).
  - destruct (client_cases (net (calls w)) test_msg (api_key (ss w)))
      as [[Hs Hg]|[Hs Hg]]; rewrite Hg.
    + cbn. eexists; split; [rewrite app_nil_r; reflexivity|]. cbn; lia.
    + destruct (classify (net (calls w) (build_request test_msg (api_key (ss w)))))
        as [reply|e]; cbn [lift ret raise map].
      * destruct (py_contains CROSS reply) as [[|]|e1]; cbn [lift ret raise];
          [|destruct (py_contains (u"Error") reply) as [[|]|e2]; cbn [lift ret raise]|];
          cbn [emit fst snd ss trace calls];
          (eexists; split; [rewrite <- ?app_assoc; reflexivity|]); cbn; lia.
      * cbn. eexists; split; [reflexivity|]. cbn; lia.
  - cbn. eexists; split; [reflexivity|]. cbn; lia.
Qed.

Lemma client_requests_bound (post : request -> post_outcome)
    (msgs : list message) (k : str) :
  (List.length (fst (get_deepseek_response post msgs k)) <= 1)%nat.
Proof.
  destruct (client_cases post msgs k) as [[_ H]|[_ H]]; rewrite H; simpl; lia.
Qed.

Lemma user_turn_role_ok (text : str) : role_ok (user_turn text).
Proof. now left. Qed.

Lemma assistant_turn_role_ok (reply : pyval) : role_ok (assistant_turn reply).
Proof. now right. Qed.

Lemma unchanged_summary (ev : event) (w w' : world) :
  fired ev <> ClearClick ->
  ss w' = ss (after_sidebar ev w) ->
  (exists tail, trace w' = trace w ++ tail /\ calls w' = (calls w + posts tail)%nat) ->
  (calls w <= calls w' <= calls w + 1)%nat ->
  (asks_network (fired ev) = false -> calls w' = calls w) ->
  run_summary ev w w'.
Proof.
  intros Hf Hs Ht Hc Hq; split; try rewrite Hs; auto.
  right; split; [exact Hf|].
  exists []; rewrite app_nil_r; repeat split; simpl; auto.
Qed.

Lemma body_summary (net : network) (ev : event) (w : world) :
  run_summary ev w (snd (script_body net ev w)).
Proof.
  destruct (fired ev) as [| | |idx|text|column] eqn:F.
  - rewrite (idle_run net ev w F); cbn [snd].
    apply unchanged_summary; try congruence; auto.
    + exists []; now rewrite app_nil_r, Nat.add_0_r.
    + simpl; lia.
  - rewrite (clear_run net ev w F); cbn [snd].
    split; cbn; auto; try lia.
    exists [Store []]; split; [reflexivity|cbn; lia].
  - rewrite (test_run net ev w F).
    destruct (test_button_spec net ev (after_sidebar ev w) F) as (_ & Hss & _).
    destruct (test_button_posts net ev (after_sidebar ev w) F) as (tail & Ht & Hc & Hb).
    apply unchanged_summary; try congruence; eauto.
    + rewrite Hc; simpl; lia.
    + rewrite F; discriminate.
  - rewrite (speak_run net ev w idx F).
    destruct (speak_buttons_spec ev (after_sidebar ev w) idx F) as (Hss & Hc & Ht).
    apply unchanged_summary; try congruence; eauto.
    + eexists; split; [exact Ht|].
      now rewrite posts_spoken_turn, Nat.add_0_r.
    + rewrite Hc; simpl; lia.
  - rewrite (chat_run net ev w text F).
    destruct (truthy (api_key (ss (after_sidebar ev w))) && truthy text) eqn:G.
    + apply andb_true_iff in G as [Gk Gt].
      destruct (get_deepseek_response (net (calls (after_sidebar ev w)))
                  (messages (ss (after_sidebar ev w)) ++ [user_turn text])
                  (api_key (ss (after_sidebar ev w)))) as [reqs r] eqn:Hg.
      destruct (chat_input_spec net ev (after_sidebar ev w) text reqs r F Gt Gk Hg)
        as (f & Hc & _).
      rewrite Hc; cbn [snd].
      pose proof (client_requests_bound (net (calls (after_sidebar ev w)))
                    (messages (ss (after_sidebar ev w)) ++ [user_turn text])
                    (api_key (ss (after_sidebar ev w)))) as Hb.
      rewrite Hg in Hb; cbn [fst] in Hb.
      destruct r as [reply|e]; split; cbn [after_chat after_sidebar ss api_key
        voice_enabled messages trace calls]; auto; try lia;
        try (rewrite F; discriminate).
      * eexists; split; [reflexivity|].
        rewrite !posts_app, posts_map_Post, posts_spoken; cbn; lia.
      * right; split; [congruence|].
        exists [user_turn text; assistant_turn reply].
        rewrite <- app_assoc; repeat split; simpl; auto.
        auto using Forall_cons, Forall_nil, user_turn_role_ok, assistant_turn_role_ok.
      * eexists; split; [reflexivity|].
        rewrite !posts_app, posts_map_Post; cbn; lia.
      * right; split; [congruence|].
        exists [user_turn text]; repeat split; simpl; auto.
        auto using Forall_cons, Forall_nil, user_turn_role_ok, assistant_turn_role_ok.
    + rewrite (chat_input_closed net ev (after_sidebar ev w) text F G); cbn [snd].
      apply unchanged_summary; try congruence; auto.
      * exists []; now rewrite app_nil_r, Nat.add_0_r.
      * simpl; lia.
  - rewrite (quick_run net ev w column F),
      (quick_actions_spec ev (after_sidebar ev w) column F).
    destruct (nth_error QUICK_ACTIONS column) as [question|]; cbn [snd].
    + split; cbn; auto; try lia.
      * eexists; split; [reflexivity|cbn; lia].
      * right; split; [congruence|].
        exists [user_turn question]; repeat split; simpl; auto.
        auto using Forall_cons, Forall_nil, user_turn_role_ok, assistant_turn_role_ok.
    + apply unchanged_summary; try congruence; auto.
      * exists []; now rewrite app_nil_r, Nat.add_0_r.
      * simpl; lia.
Qed.

Lemma after_sidebar_fixed (ev : event) (w x : world) :
  api_key (ss x) = stored_key ev w ->
  voice_enabled (ss x) = voice_checkbox ev ->
  after_sidebar ev x = x.
Proof.
  destruct x as [[ms k v] t c]; unfold after_sidebar, stored_key; cbn.
  intros -> ->.
  now destruct (truthy (api_key_input ev)).
Qed.

(** The rerun that ends an action only reads the widgets again: what the
    action leaves is what its first run left. *)
Lemma handle_is_body (net : network) (ev : event) (w : world) :
  handle net ev w = snd (script_body net ev w).
Proof.
  pose proof (body_summary net ev w) as [Hk Hv _ _ _ _].
  unfold handle.
  destruct (script_body net ev w) as [[[]| |e] x]; cbn [snd] in *; try reflexivity.
  rewrite (idle_run net (idle ev) x eq_refl); cbn [snd].
  apply (after_sidebar_fixed ev w x Hk Hv).
Qed.

Lemma handle_summary (net : network) (ev : event) (w : world) :
  run_summary ev w (handle net ev w).
Proof. rewrite handle_is_body; apply body_summary. Qed.

(** ** Further properties of the session controller *)

(** X1: every action but Clear Chat History keeps the transcript it found as
    a prefix and adds at most two turns to it. *)
Theorem action_extends_transcript (net : network) (ev : event) (w : world) :
  fired ev <> ClearClick ->
  exists extra,
    messages (ss (handle net ev w)) = messages (ss w) ++ extra /\
    (List.length extra <= 2)%nat.
Proof.
  intros Hf.
  destruct (run_messages _ _ _ (handle_summary net ev w))
    as [[Hc _]|(_ & extra & Hm & Hl & _)]; [now elim Hf|].
  now exists extra.
Qed.

Lemma action_extends_transcript_witness :
  exists extra,
    messages (ss (handle (fun _ _ => Responds (ok_response (Val DRINK_WATER)))
                    (chat_event (u"sk-test") false (u"hello")) initial_world))
    = messages (ss initial_world) ++ extra /\
    (List.length extra <= 2)%nat.
Proof.
  apply (action_extends_transcript
           (fun _ _ => Responds (ok_response (Val DRINK_WATER)))
           (chat_event (u"sk-test") false (u"hello")) initial_world).
  simpl; discriminate.
Defined.

Lemma session_roles_from (net : network) (evs : list event) (w : world) :
  Forall role_ok (messages (ss w)) ->
  Forall role_ok (messages (ss (session net evs w))).
Proof.
  revert w; induction evs as [|ev evs IH]; intros w Hw; [exact Hw|].
  cbn [session]; apply IH.
  destruct (run_messages _ _ _ (handle_summary net ev w))
    as [[_ Hm]|(_ & extra & Hm & _ & Hr)]; rewrite Hm.
  - constructor.
  - apply Forall_app; auto.
Qed.

(** X2: whatever the user does and the network answers, every turn in the
    transcript of a session has the role "user" or "assistant": the system
    prompt goes into the requests only. *)
Theorem session_roles (net : network) (evs : list event) :
  Forall role_ok (messages (ss (session net evs initial_world))).
Proof. apply session_roles_from; constructor. Qed.

Lemma stored_key_stripped (ev : event) (w : world) :
  strip (api_key (ss w)) = api_key (ss w) ->
  strip (stored_key ev w) = stored_key ev w.
Proof.
  intros H; unfold stored_key.
  destruct (truthy (api_key_input ev)); [apply strip_idem|exact H].
Qed.

Lemma session_key_from (net : network) (evs : list event) (w : world) :
  strip (api_key (ss w)) = api_key (ss w) ->
  strip (api_key (ss (session net evs w))) = api_key (ss (session net evs w)).
Proof.
  revert w; induction evs as [|ev evs IH]; intros w Hw; [exact Hw|].
  cbn [session]; apply IH.
  rewrite (run_key _ _ _ (handle_summary net ev w)).
  now apply stored_key_stripped.
Qed.

(** X3: the key in the store of a session is always in stripped form, so a
    stored key that is not empty is not blank either: behind the guard
    [if st.session_state.api_key] the client never meets a blank key. *)
Theorem session_key_stripped (net : network) (evs : list event) :
  let k := api_key (ss (session net evs initial_world)) in
  strip k = k /\ (truthy k = true -> strip k <> []).
Proof.
  cbv zeta.
  assert (H : strip (api_key (ss (session net evs initial_world)))
              = api_key (ss (session net evs initial_world)))
    by (apply session_key_from; reflexivity).
  split; [exact H|].
  rewrite H; intros Ht E; rewrite E in Ht; discriminate.
Qed.

Lemma session_key_stripped_witness :
  let k := api_key (ss (session (fun _ _ => PostRaises (ReadTimeout []))
                          [chat_event (u"  sk-test ") false (u"hello")]
                          initial_world)) in
  strip k <> [].
Proof.
  intros k.
  apply (session_key_stripped (fun _ _ => PostRaises (ReadTimeout []))
           [chat_event (u"  sk-test ") false (u"hello")]).
  reflexivity.
Defined.

(** X4: an action issues at most one request, and none at all unless it is
    a chat submission or a connection test; the requests are the [Post]
    effects the action adds to the trace. *)
Theorem action_requests (net : network) (ev : event) (w : world) :
  exists tail,
    trace (handle net ev w) = trace w ++ tail /\
    (posts tail <= 1)%nat /\
    (asks_network (fired ev) = false -> posts tail = 0%nat).
Proof.
  pose proof (handle_summary net ev w) as [_ _ (tail & Ht & Hc) Hb Hq _].
  exists tail; repeat split; [exact Ht|lia|].
  intros Hn; specialize (Hq Hn); lia.
Qed.

Lemma action_requests_witness :
  exists tail,
    trace (handle (fun _ _ => Responds (ok_response (Val DRINK_WATER)))
             {| api_key_input := u"sk-test"; voice_checkbox := true;
                fired := QuickClick 2 |} initial_world)
    = trace initial_world ++ tail /\
    posts tail = 0%nat.
Proof.
  destruct (action_requests (fun _ _ => Responds (ok_response (Val DRINK_WATER)))
              {| api_key_input := u"sk-test"; voice_checkbox := true;
                 fired := QuickClick 2 |} initial_world) as (tail & Ht & _ & Hq).
  exists tail; split; [exact Ht|].
  apply Hq; reflexivity.
Defined.

Lemma chat_trace_head (net : network) (ev : event) (w : world) (text : str) :
  fired ev = ChatInput text ->
  truthy text = true ->
  strip (stored_key ev w) <> [] ->
  exists rest,
    trace (handle net ev w)
    = trace w ++ [Store (messages (ss w) ++ [user_turn text]);
                  Post (build_request (messages (ss w) ++ [user_turn text])
                          (stored_key ev w))] ++ rest.
Proof.
  intros F Ht Hk.
  assert (Htk : truthy (stored_key ev w) = true).
  { destruct (stored_key ev w); [now elim Hk|reflexivity]. }
  pose proof (client_with_key (net (calls w)) (messages (ss w) ++ [user_turn text])
                (stored_key ev w) Hk) as Hg.
  destruct (handle_chat net ev w text _ _ F Ht Htk Hg) as (_ & Htr & _).
  rewrite Htr.
  destruct (classify (net (calls w)
              (build_request (messages (ss w) ++ [user_turn text]) (stored_key ev w))));
    cbn [after_chat after_sidebar ss messages trace map];
    eexists; f_equal; cbn [app]; reflexivity.
Qed.

(** X5: a chat submission with a text and a non-blank key stores the user
    turn and then sends one request that carries the system prompt, the
    whole transcript so far and the new turn, in this order. *)
Theorem chat_sends_whole_transcript (net : network) (k : str) (voice : bool)
    (text : str) (w : world) :
  let ev := chat_event k voice text in
  let asked := messages (ss w) ++ [user_turn text] in
  truthy text = true ->
  strip (stored_key ev w) <> [] ->
  (exists rest,
     trace (handle net ev w)
     = trace w ++ [Store asked; Post (build_request asked (stored_key ev w))] ++ rest) /\
  assoc (u"messages") match req_json (build_request asked (stored_key ev w)) with
                      | PDict d => d
                      | _ => []
                      end
  = Some (PList (message_json system_message
                 :: map message_json (messages (ss w)) ++ [message_json (user_turn text)])).
Proof.
  intros ev asked Ht Hk.
  split.
  - exact (chat_trace_head net ev w text eq_refl Ht Hk).
  - cbn. unfold asked. now rewrite map_app.
Qed.

Lemma chat_sends_whole_transcript_witness :
  exists rest,
    trace (handle (fun _ _ => PostRaises (ReadTimeout []))
             (chat_event (u"sk-test") false (u"hello")) initial_world)
    = [Store [user_turn (u"hello")];
       Post (build_request [user_turn (u"hello")] (u"sk-test"))] ++ rest.
Proof.
  destruct (chat_sends_whole_transcript (fun _ _ => PostRaises (ReadTimeout []))
              (u"sk-test") false (u"hello") initial_world) as [H _].
  - reflexivity.
  - vm_compute; discriminate.
  - exact H.
Defined.

Lemma chat_event_key (k : str) (voice : bool) (text : str) (w : world) :
  strip k <> [] -> stored_key (chat_event k voice text) w = strip k.
Proof.
  intros H; unfold stored_key; cbn.
  destruct k; [now elim H|reflexivity].
Qed.

Lemma exchanges_length (asked : list (bool * str)) (replies : list pyval) :
  List.length replies = List.length asked ->
  List.length (exchanges asked replies) = (2 * List.length asked)%nat.
Proof.
  revert replies; induction asked as [|[v t] asked IH]; intros [|r replies] H;
    try discriminate; [reflexivity|].
  unfold exchanges in *; cbn in *.
  rewrite (IH replies) by lia; lia.
Qed.

Lemma chat_session_from (net : network) (k : str) (asked : list (bool * str))
    (w : world) :
  answers net ->
  strip k <> [] ->
  Forall (fun q => truthy (snd q) = true) asked ->
  exists replies,
    replied net (strip k) (calls w) (messages (ss w)) asked replies /\
    List.length replies = List.length asked /\
    messages (ss (session net (map (fun q => chat_event k (fst q) (snd q)) asked) w))
    = messages (ss w) ++ exchanges asked replies.
Proof.
  intros Hnet Hk Ha; revert w.
  induction Ha as [|[voice text] asked Ht _ IH]; intros w.
  - exists []; repeat split; [constructor|now rewrite app_nil_r].
  - cbn [map session fst snd] in *.
    set (ev := chat_event k voice text).
    assert (Hs : stored_key ev w = strip k) by now apply chat_event_key.
    assert (Hsk : strip (stored_key ev w) <> []) by (rewrite Hs, strip_idem; exact Hk).
    assert (Htk : truthy (stored_key ev w) = true).
    { destruct (stored_key ev w); [now elim Hsk|reflexivity]. }
    pose proof (client_with_key (net (calls w)) (messages (ss w) ++ [user_turn text])
                  (stored_key ev w) Hsk) as Hg.
    destruct (Hnet (calls w) (build_request (messages (ss w) ++ [user_turn text])
                                (stored_key ev w))) as [reply Hr].
    rewrite Hr in Hg.
    destruct (handle_chat net ev w text _ _ eq_refl Ht Htk Hg) as (Hm & _ & Hc).
    cbn [after_chat after_sidebar ss messages calls List.length] in Hm, Hc.
    rewrite <- app_assoc in Hm; cbn [app] in Hm.
    rewrite Nat.add_1_r in Hc.
    destruct (IH (handle net ev w)) as (replies & Hrep & Hl & Hms).
    rewrite Hm, Hc in Hrep.
    exists (reply :: replies); repeat split.
    + rewrite Hs in Hg. now apply (replied_cons net (strip k) _ _ voice text asked).
    + simpl; lia.
    + rewrite Hms, Hm, <- !app_assoc; reflexivity.
Qed.

(** X6: a session of chat submissions, each with a text, under one
    non-blank key, over a network on which the client returns every time:
    the transcript is the sequence of the questions, each followed by what
    the client returned on the request that carried the transcript up to
    that question, and its count is twice the number of submissions. *)
Theorem chat_session_exchanges (net : network) (k : str) (asked : list (bool * str)) :
  answers net ->
  strip k <> [] ->
  Forall (fun q => truthy (snd q) = true) asked ->
  let w := session net (map (fun q => chat_event k (fst q) (snd q)) asked)
             initial_world in
  (exists replies,
     replied net (strip k) 0 [] asked replies /\
     List.length replies = List.length asked /\
     messages (ss w) = exchanges asked replies) /\
  count w = (2 * List.length asked)%nat.
Proof.
  intros Hnet Hk Ha w.
  destruct (chat_session_from net k asked initial_world Hnet Hk Ha)
    as (replies & Hrep & Hl & Hm).
  fold w in Hm; cbn [initial_world ss messages calls app] in Hm, Hrep.
  split; [now exists replies|].
  unfold count; rewrite Hm; now apply exchanges_length.
Qed.

Lemma chat_session_exchanges_witness :
  messages (ss (session (fun _ _ => Responds (ok_response (Val DRINK_WATER)))
                  [chat_event (u"sk-test") false (u"How much water?");
                   chat_event (u"sk-test") true (u"And tea?")]
                  initial_world))
  = [user_turn (u"How much water?"); assistant_turn (PStr (u"Drink water."));
     user_turn (u"And tea?"); assistant_turn (PStr (u"Drink water."))].
Proof.
  destruct (chat_session_exchanges
              (fun _ _ => Responds (ok_response (Val DRINK_WATER)))
              (u"sk-test") [(false, u"How much water?"); (true, u"And tea?")])
    as [(replies & Hrep & _ & Hm) _].
  - intros n req; eexists; reflexivity.
  - vm_compute; discriminate.
  - repeat constructor.
  - cbn [map fst snd] in Hm; rewrite Hm.
    inversion Hrep as [|n1 s1 v1 t1 a1 r1 rs1 H1 Hrest]; subst.
    injection H1 as <-.
    inversion Hrest as [|n2 s2 v2 t2 a2 r2 rs2 H2 Hnil]; subst.
    injection H2 as <-.
    inversion Hnil; subst.
    reflexivity.
Defined.

(** X7: after Clear Chat History the next chat submission sends the system
    prompt and the new turn only: nothing of the earlier transcript is left
    in the request. *)
Theorem clear_forgets_context (net : network) (k : str) (v v' : bool)
    (text : str) (w : world) :
  truthy text = true ->
  strip k <> [] ->
  let cleared := handle net {| api_key_input := k; voice_checkbox := v;
                               fired := ClearClick |} w in
  exists rest,
    trace (handle net (chat_event k v' text) cleared)
    = trace cleared ++ [Store [user_turn text];
                        Post (build_request [user_turn text] (strip k))] ++ rest.
Proof.
  intros Ht Hk cleared.
  assert (Hm : messages (ss cleared) = []).
  { unfold cleared.
    set (ev := {| api_key_input := k; voice_checkbox := v; fired := ClearClick |}).
    now rewrite (handle_rerun net ev w _ (clear_run net ev w eq_refl)). }
  assert (Hs : stored_key (chat_event k v' text) cleared = strip k)
    by now apply chat_event_key.
  destruct (chat_trace_head net (chat_event k v' text) cleared text eq_refl Ht)
    as [rest Hr].
  - rewrite Hs, strip_idem; exact Hk.
  - rewrite Hm, Hs in Hr. now exists rest.
Qed.

Lemma clear_forgets_context_witness :
  let w := {| ss := {| messages := [user_turn (u"old"); assistant_turn (PStr (u"reply"))];
                       api_key := u"sk-test"; voice_enabled := false |};
              trace := []; calls := 0%nat |} in
  let cleared := handle (fun _ _ => PostRaises (ReadTimeout []))
                   {| api_key_input := u"sk-test"; voice_checkbox := false;
                      fired := ClearClick |} w in
  exists rest,
    trace (handle (fun _ _ => PostRaises (ReadTimeout []))
             (chat_event (u"sk-test") false (u"new")) cleared)
    = trace cleared ++ [Store [user_turn (u"new")];
                        Post (build_request [user_turn (u"new")] (u"sk-test"))] ++ rest.
Proof.
  intros w cleared.
  apply (clear_forgets_context (fun _ _ => PostRaises (ReadTimeout []))
           (u"sk-test") false false (u"new") w).
  - reflexivity.
  - vm_compute; discriminate.
Defined.

(** X8: a click on the speak button beside a turn changes neither the
    transcript nor the number of requests; what it hands to the browser is
    the payload of that turn's text, and nothing for a user turn or an index
    past the end. *)
Theorem speak_click_only_speaks (net : network) (k : str) (v : bool)
    (idx : nat) (w : world) :
  let w' := handle net {| api_key_input := k; voice_checkbox := v;
                          fired := SpeakClick idx |} w in
  messages (ss w') = messages (ss w) /\
  calls w' = calls w /\
  trace w' = trace w ++ spoken_turn (nth_error (messages (ss w)) idx).
Proof.
  set (ev := {| api_key_input := k; voice_checkbox := v; fired := SpeakClick idx |}).
  cbv zeta.
  rewrite handle_is_body, (speak_run net ev w idx eq_refl).
  destruct (speak_buttons_spec ev (after_sidebar ev w) idx eq_refl) as (Hs & Hc & Ht).
  rewrite Hs, Hc, Ht; repeat split; reflexivity.
Qed.

(** X9: a quick action button appends its question as a user turn, for
    every earlier transcript, and issues no request; the rerun that follows
    leaves the transcript as it is. *)
Theorem quick_action_appends_question (net : network) (k : str) (v : bool)
    (column : nat) (question : str) (w : world) :
  nth_error QUICK_ACTIONS column = Some question ->
  let ev := {| api_key_input := k; voice_checkbox := v; fired := QuickClick column |} in
  let w' := handle net ev w in
  messages (ss w') = messages (ss w) ++ [user_turn question] /\
  trace w' = trace w ++ [Store (messages (ss w) ++ [user_turn question])] /\
  calls w' = calls w /\
  messages (ss (handle net (idle ev) w')) = messages (ss w').
Proof.
  intros Hq ev w'; subst w'.
  rewrite !handle_is_body, (idle_run net (idle ev) _ eq_refl).
  rewrite (quick_run net ev w column eq_refl),
    (quick_actions_spec ev (after_sidebar ev w) column eq_refl), Hq.
  repeat split; reflexivity.
Qed.

Lemma quick_action_appends_question_witness :
  messages (ss (handle (fun _ _ => Responds (ok_response (Val DRINK_WATER)))
                  {| api_key_input := u"sk-test"; voice_checkbox := false;
                     fired := QuickClick 3 |} initial_world))
  = [user_turn (u"How to manage stress?")].
Proof.
  apply (quick_action_appends_question
           (fun _ _ => Responds (ok_response (Val DRINK_WATER)))
           (u"sk-test") false 3 (u"How to manage stress?") initial_world).
  reflexivity.
Defined.

(** X10: without a stored key, or with an empty text, a chat submission
    does nothing: no turn is stored, no request is issued, nothing is added
    to the trace. *)
Theorem chat_needs_key_and_text (net : network) (k : str) (v : bool)
    (text : str) (w : world) :
  let ev := chat_event k v text in
  truthy (stored_key ev w) && truthy text = false ->
  messages (ss (handle net ev w)) = messages (ss w) /\
  trace (handle net ev w) = trace w /\
  calls (handle net ev w) = calls w.
Proof.
  intros ev Hc.
  rewrite handle_is_body, (chat_run net ev w text eq_refl).
  rewrite (chat_input_closed net ev (after_sidebar ev w) text eq_refl Hc).
  repeat split; reflexivity.
Qed.

Lemma chat_needs_key_and_text_witness :
  messages (ss (handle (fun _ _ => Responds (ok_response (Val DRINK_WATER)))
                  (chat_event (u"   ") false (u"hello")) initial_world)) = [].
Proof.
  apply (chat_needs_key_and_text
           (fun _ _ => Responds (ok_response (Val DRINK_WATER)))
           (u"   ") false (u"hello") initial_world).
  reflexivity.
Defined.

(** X11: after any action the stored key is the stripped content of the key
    field when the field is not empty, and the key stored before otherwise:
    an empty field keeps the key, a field of blanks erases it. *)
Theorem key_field_rules (net : network) (ev : event) (w : world) :
  let after := api_key (ss (handle net ev w)) in
  after = (if truthy (api_key_input ev) then strip (api_key_input ev)
           else api_key (ss w)) /\
  (api_key_input ev = [] -> after = api_key (ss w)) /\
  (api_key_input ev <> [] -> forallb isspace (api_key_input ev) = true -> after = []).
Proof.
  cbv zeta.
  rewrite (run_key _ _ _ (handle_summary net ev w)); unfold stored_key.
  split; [reflexivity|split].
  - now intros ->.
  - intros Hn Hb.
    destruct (api_key_input ev) eqn:E; [now elim Hn|].
    cbn [truthy]; now apply strip_blank.
Qed.

Lemma key_field_rules_witness :
  api_key (ss (handle (fun _ _ => Responds (ok_response (Val DRINK_WATER)))
                 {| api_key_input := [SPACE; SPACE]; voice_checkbox := false;
                    fired := NoTrigger |}
                 {| ss := {| messages := []; api_key := u"sk-test";
                             voice_enabled := false |};
                    trace := []; calls := 0%nat |})) = [].
Proof.
  apply (key_field_rules (fun _ _ => Responds (ok_response (Val DRINK_WATER)))
           {| api_key_input := [SPACE; SPACE]; voice_checkbox := false;
              fired := NoTrigger |}).
  - discriminate.
  - reflexivity.
Defined.

(** X12: a run in which no control fired changes neither the transcript
    nor the trace nor the number of requests, and a second such run changes
    nothing at all. *)
Theorem idle_run_idempotent (net : network) (k : str) (v : bool) (w : world) :
  let ev := {| api_key_input := k; voice_checkbox := v; fired := NoTrigger |} in
  let w' := handle net ev w in
  messages (ss w') = messages (ss w) /\
  trace w' = trace w /\
  calls w' = calls w /\
  handle net ev w' = w'.
Proof.
  intros ev w'; subst w'.
  rewrite !handle_is_body, !(idle_run net ev _ eq_refl); cbn [snd].
  repeat split.
  apply (after_sidebar_fixed ev w); reflexivity.
Qed.

(** ** Further properties of the completion client *)

Lemma marked_cross (rest : str) : marked (CROSS ++ rest) = true.
Proof. reflexivity. Qed.

Lemma except_clauses_values (e : exn) (v : pyval) :
  except_clauses e = Val v -> exists s, v = PStr s /\ marked s = true.
Proof.
  unfold except_clauses.
  destruct (is_Timeout e); [intros [= <-]; now eexists|].
  destruct (is_ConnectionError e); [intros [= <-]; now eexists|].
  destruct (is_RequestException e); [intros [= <-]; eexists; split; [reflexivity|apply marked_cross]|].
  destruct (is_parse_failure e); [intros [= <-]; eexists; split; [reflexivity|apply marked_cross]|].
  discriminate.
Qed.

Lemma except_clauses_raises (e e' : exn) :
  except_clauses e = Exc e' ->
  e' = e /\ is_RequestException e = false /\ is_parse_failure e = false.
Proof.
  unfold except_clauses.
  destruct (is_Timeout e); [discriminate|].
  destruct (is_ConnectionError e); [discriminate|].
  destruct (is_RequestException e); [discriminate|].
  destruct (is_parse_failure e); [discriminate|].
  now intros [= <-].
Qed.

Lemma read_body (body : pyval) :
  body_outcome body
    (has <- py_contains (u"choices") body ;;
     if has then
       choices <- py_getitem_str body (u"choices") ;;
       n <- py_len choices ;;
       if n >? 0 then
         choices' <- py_getitem_str body (u"choices") ;;
         first <- py_getitem_0 choices' ;;
         msg <- py_getitem_str first (u"message") ;;
         py_getitem_str msg (u"content")
       else Val (PStr MSG_FORMAT)
     else Val (PStr MSG_FORMAT)).
Proof.
  destruct body as [| | | |s|l|d]; try (cbn; constructor).
  - cbn -[contains lit MSG_FORMAT].
    destruct (contains (u"choices") s); cbn; constructor.
  - cbn -[existsb lit MSG_FORMAT].
    destruct (existsb (str_eq_py (u"choices")) l); cbn; constructor.
  - cbn -[assoc lit MSG_FORMAT Z.gtb].
    destruct (assoc (u"choices") d) as [c|] eqn:Hc;
      cbn -[assoc lit MSG_FORMAT Z.gtb]; [|constructor].
    rewrite ?Hc; cbn -[assoc lit MSG_FORMAT Z.gtb].
    destruct c as [| | | |cs|cl|cd]; cbn -[assoc lit MSG_FORMAT Z.gtb];
      try constructor.
    + destruct (Z.of_nat (List.length cs) >? 0); [|constructor].
      rewrite ?Hc; cbn -[assoc lit].
      destruct cs; cbn; constructor.
    + destruct (Z.of_nat (List.length cl) >? 0); [|constructor].
      rewrite ?Hc; cbn -[assoc lit].
      destruct cl as [|first rest]; cbn -[assoc lit]; [constructor|].
      destruct first as [| | | | | |fd]; cbn -[assoc lit]; try constructor.
      destruct (assoc (u"message") fd) as [msg|] eqn:Hm; cbn -[assoc lit];
        [|constructor].
      destruct msg as [| | | | | |md]; cbn -[assoc lit]; try constructor.
      destruct (assoc (u"content") md) as [v|] eqn:Hv; [|constructor].
      apply body_content.
      now exists d, fd, md, rest.
    + destruct (Z.of_nat (List.length cd) >? 0); [|constructor].
      rewrite ?Hc; cbn; constructor.
Qed.

(** What the [try] block does with a response, by the status and the
    body. *)
Lemma try_block_responds (r : response) :
  (exists s, try_block (Responds r) = Val (PStr s) /\ marked s = true) \/
  (exists m, try_block (Responds r) = Exc (HTTPError m)) \/
  (exists e, json r = Exc e /\ try_block (Responds r) = Exc e) \/
  (exists body, json r = Val body /\ body_outcome body (try_block (Responds r))).
Proof.
  unfold try_block.
  destruct (status_code r =? 401); [left; now eexists|].
  destruct (status_code r =? 429); [left; now eexists|].
  destruct (status_code r =? 500); [left; now eexists|].
  unfold raise_for_status.
  destruct (truthy (http_error_msg r)); [right; left; now eexists|].
  cbn [bind].
  destruct (json r) as [body|e] eqn:Hj; [|right; right; left; now eexists].
  right; right; right; exists body; split; [reflexivity|].
  cbn [bind]; apply read_body.
Qed.

(** X13: an exception that leaves the client is never one of the classes
    its [except] clauses name; and once the response has arrived and its
    body is decoded, the only exception that can leave is a [TypeError]. *)
Theorem client_lets_only_type_error_through (post : request -> post_outcome)
    (msgs : list message) (k : str) (e : exn) :
  snd (get_deepseek_response post msgs k) = Exc e ->
  is_RequestException e = false /\
  is_parse_failure e = false /\
  (forall r body,
     post (build_request msgs k) = Responds r -> json r = Val body ->
     exists m, e = TypeError m).
Proof.
  destruct (client_cases post msgs k) as [[_ Hg]|[_ Hg]]; rewrite Hg; cbn [snd];
    [discriminate|].
  unfold classify, try_except.
  destruct (try_block (post (build_request msgs k))) as [v|e'] eqn:Hb; [discriminate|].
  intros He; apply except_clauses_raises in He as (-> & Hr & Hp).
  repeat split; auto.
  intros r body Ho Hj; rewrite Ho in Hb.
  destruct (try_block_responds r) as [(s & Hs & _)|[(m & Hm)|[(x & Hx & _)|(b & Hjb & Hw)]]];
    try congruence.
  - rewrite Hb in Hm; injection Hm as ->; discriminate.
  - rewrite Hb in Hw; inversion Hw; subst; try discriminate.
    now eexists.
Qed.

Lemma client_lets_only_type_error_through_witness :
  exists m,
    TypeError (u"argument is not iterable") = TypeError m.
Proof.
  destruct (client_lets_only_type_error_through
              (fun _ => Responds (ok_response (Val (PInt 7))))
              [user_turn (u"hello")] (u"sk-test")
              (TypeError (u"argument is not iterable")))
    as (_ & _ & H).
  - reflexivity.
  - apply (H (ok_response (Val (PInt 7))) (PInt 7)); reflexivity.
Defined.

(** X14: a value the client returns is either a message of its own, which
    starts with one of its four signs, or the content of the first choice
    of the decoded body of the response. *)
Theorem client_returns_message_or_content (post : request -> post_outcome)
    (msgs : list message) (k : str) (v : pyval) :
  snd (get_deepseek_response post msgs k) = Val v ->
  (exists s, v = PStr s /\ marked s = true) \/
  (exists r body,
     post (build_request msgs k) = Responds r /\ json r = Val body /\
     first_choice_content body v).
Proof.
  destruct (client_cases post msgs k) as [[_ Hg]|[_ Hg]]; rewrite Hg; cbn [snd].
  - intros [= <-]; left; exists MSG_EMPTY_KEY; split; reflexivity.
  - unfold classify, try_except.
    destruct (post (build_request msgs k)) as [r|e] eqn:Ho.
    + destruct (try_block_responds r)
        as [(s & Hs & Hm)|[(m & Hm)|[(x & Hx & Hb)|(b & Hj & Hw)]]].
      * rewrite Hs; intros [= <-]; left; exists s; split; [reflexivity|exact Hm].
      * rewrite Hm; intros H; left; now apply (except_clauses_values _ _ H).
      * rewrite Hb; intros H; left; now apply (except_clauses_values _ _ H).
      * revert Hw; generalize (try_block (Responds r)); intros t Hw.
        destruct Hw as [|v' Hc|m|m|m].
        -- intros [= <-]; left; exists MSG_FORMAT; split; reflexivity.
        -- intros [= <-]; right; now exists r, b.
        -- intros H; left; now apply (except_clauses_values _ _ H).
        -- intros H; left; now apply (except_clauses_values _ _ H).
        -- intros H; left; now apply (except_clauses_values _ _ H).
    + cbn [try_block]. intros H; left; now apply (except_clauses_values _ _ H).
Qed.

Lemma client_returns_message_or_content_witness :
  (exists s, PStr MSG_TIMEOUT = PStr s /\ marked s = true) \/
  (exists r body,
     (fun _ : request => PostRaises (ReadTimeout [])) (build_request [] (u"sk-test"))
     = Responds r /\ json r = Val body /\
     first_choice_content body (PStr MSG_TIMEOUT)).
Proof.
  apply (client_returns_message_or_content
           (fun _ => PostRaises (ReadTimeout [])) [] (u"sk-test") (PStr MSG_TIMEOUT)).
  reflexivity.
Defined.

(** ** The verdict of Test Connection *)

Lemma contains_startswith (p s : str) : startswith s p = true -> contains p s = true.
Proof. intros H; destruct s; simpl; now rewrite H. Qed.

Lemma contains_cross (rest : str) : contains CROSS (CROSS ++ rest) = true.
Proof. apply contains_startswith, startswith_app. Qed.

(** The handler on a reply that is a string. *)
Lemma test_button_verdict (net : network) (ev : event) (w : world) (s : str) :
  fired ev = TestClick ->
  strip (api_key (ss w)) <> [] ->
  classify (net (calls w) (build_request test_msg (api_key (ss w)))) = Val (PStr s) ->
  trace (snd (test_button net ev w))
  = trace w ++ [Post (build_request test_msg (api_key (ss w)));
                if contains CROSS s || contains (u"Error") s
                then StError (PStr s)
                else StSuccess (CHECK_MARK ++ u" Connection successful!")].
Proof.
  intros H Hk Hr; unfold test_button; rewrite H.
  unfold seq, get_session, call_client.
  assert (Ht : truthy (api_key (ss w)) = true).
  { destruct (api_key (ss w)); [now elim Hk|reflexivity]. }
  rewrite Ht, (client_with_key _ _ _ Hk), Hr.
  cbn [lift ret map py_contains].
  destruct (contains CROSS s); cbn [lift ret orb emit snd trace];
    [now rewrite <- app_assoc|].
  destruct (contains (u"Error") s); cbn [emit snd trace]; now rewrite <- app_assoc.
Qed.

(** X15: with a non-blank key, Test Connection shows the error box with
    the very message the client returned when the API answers with a status
    from 400 to 599 other than 429, or when the request fails with an
    exception of the [requests] library; on status 429 the client returns
    the rate-limit message and the handler shows "Connection successful!",
    because that message holds neither the cross mark nor the word
    "Error". *)
Theorem test_connection_verdict (net : network) (k : str) (v : bool) (w : world) :
  let ev := {| api_key_input := k; voice_checkbox := v; fired := TestClick |} in
  let req := build_request test_msg (stored_key ev w) in
  let returned :=
    snd (get_deepseek_response (net (calls w)) test_msg (stored_key ev w)) in
  let shown (e : effect) := trace (handle net ev w) = trace w ++ [Post req; e] in
  strip (stored_key ev w) <> [] ->
  (forall r, net (calls w) req = Responds r -> status_code r = 429 ->
     returned = Val (PStr MSG_RATE_LIMIT) /\
     shown (StSuccess (CHECK_MARK ++ u" Connection successful!"))) /\
  (forall r, net (calls w) req = Responds r ->
     400 <= status_code r < 600 -> status_code r <> 429 ->
     exists msg, returned = Val (PStr msg) /\ shown (StError (PStr msg))) /\
  (forall e, net (calls w) req = PostRaises e -> is_RequestException e = true ->
     exists msg, returned = Val (PStr msg) /\ shown (StError (PStr msg))).
Proof.
  intros ev req returned shown Hk; subst shown returned; cbv beta.
  rewrite handle_is_body, (test_run net ev w eq_refl).
  rewrite (client_with_key (net (calls w)) test_msg (stored_key ev w) Hk).
  cbn [snd]; fold req.
  assert (V : forall s,
             classify (net (calls w) req) = Val (PStr s) ->
             trace (snd (test_button net ev (after_sidebar ev w)))
             = trace w ++ [Post req;
                           if contains CROSS s || contains (u"Error") s
                           then StError (PStr s)
                           else StSuccess (CHECK_MARK ++ u" Connection successful!")]).
  { intros s Hs. now apply (test_button_verdict net ev (after_sidebar ev w) s). }
  split; [|split].
  - intros r Ho Hs.
    assert (Hc : classify (net (calls w) req) = Val (PStr MSG_RATE_LIMIT))
      by (rewrite Ho; now apply classify_429).
    split; [exact Hc|now rewrite (V MSG_RATE_LIMIT Hc)].
  - intros r Ho Hr Hn.
    destruct (Z.eq_dec (status_code r) 401) as [E1|N1].
    { assert (Hc : classify (net (calls w) req) = Val (PStr MSG_AUTH))
        by (rewrite Ho; now apply classify_401).
      exists MSG_AUTH; split; [exact Hc|now rewrite (V MSG_AUTH Hc)]. }
    destruct (Z.eq_dec (status_code r) 500) as [E5|N5].
    { assert (Hc : classify (net (calls w) req) = Val (PStr MSG_SERVER))
        by (rewrite Ho; now apply classify_500).
      exists MSG_SERVER; split; [exact Hc|now rewrite (V MSG_SERVER Hc)]. }
    assert (Hc : classify (net (calls w) req)
                 = Val (PStr (MSG_REQUEST (http_error_msg r)))).
    { rewrite Ho; apply classify_http_error; [exact Hr|].
      unfold special_status; lia. }
    exists (MSG_REQUEST (http_error_msg r)); split; [exact Hc|].
    rewrite (V _ Hc).
    unfold MSG_REQUEST; now rewrite contains_cross.
  - intros e Ho He.
    unfold classify, try_block, try_except, except_clauses in *.
    rewrite Ho, He in *.
    destruct (is_Timeout e);
      [exists MSG_TIMEOUT; split; [reflexivity|now rewrite (V MSG_TIMEOUT eq_refl)]|].
    destruct (is_ConnectionError e);
      [exists MSG_CONNECTION; split;
       [reflexivity|now rewrite (V MSG_CONNECTION eq_refl)]|].
    exists (MSG_REQUEST (exn_str e)); split; [reflexivity|].
    rewrite (V _ eq_refl).
    unfold MSG_REQUEST; now rewrite contains_cross.
Qed.

Lemma test_connection_verdict_witness :
  trace (handle (fun _ _ => Responds (with_status 429 (ok_response (Val PNone))))
           {| api_key_input := u"sk-test"; voice_checkbox := false; fired := TestClick |}
           initial_world)
  = [Post (build_request test_msg (u"sk-test"));
     StSuccess (CHECK_MARK ++ u" Connection successful!")].
Proof.
  destruct (test_connection_verdict
              (fun _ _ => Responds (with_status 429 (ok_response (Val PNone))))
              (u"sk-test") false initial_world) as [H _].
  - vm_compute; discriminate.
  - apply (H _ eq_refl); reflexivity.
Defined.

(** ** Further properties of the speech trigger *)

Lemma replace1_cons (old : N) (new : str) (c : N) (s : str) :
  replace1 old new (c :: s)
  = (if N.eqb c old then new else [c]) ++ replace1 old new s.
Proof. reflexivity. Qed.

Lemma replace1_app (old : N) (new a b : str) :
  replace1 old new (a ++ b) = replace1 old new a ++ replace1 old new b.
Proof. unfold replace1; apply flat_map_app. Qed.

Lemma replace1_absent (old : N) (new s : str) :
  ~ In old s -> replace1 old new s = s.
Proof.
  induction s as [|c s IH]; intros H; [reflexivity|].
  rewrite replace1_cons, IH by (intros Hi; apply H; now right).
  destruct (N.eqb_spec c old) as [->|_]; [elim H; now left|reflexivity].
Qed.

Lemma replace1_removes (old : N) (new s : str) :
  ~ In old new -> ~ In old (replace1 old new s).
Proof.
  intros Hn; induction s as [|c s IH]; [intros []|].
  rewrite replace1_cons; intros Hi; apply in_app_or in Hi as [Hi|Hi]; [|auto].
  destruct (N.eqb_spec c old) as [->|Hc]; [auto|].
  destruct Hi as [->|[]]; now elim Hc.
Qed.

(** What [clean_text] makes of one character. *)
Lemma clean_text_cons (c : N) (text : str) :
  clean_text (c :: text)
  = (if N.eqb c DQUOTE then [BACKSLASH; DQUOTE]
     else if N.eqb c NL then [SPACE] else [c]) ++ clean_text text.
Proof.
  unfold clean_text.
  rewrite replace1_cons, replace1_app; f_equal.
  destruct (N.eqb c DQUOTE); [reflexivity|].
  rewrite replace1_cons; cbn [replace1 flat_map]; now rewrite app_nil_r.
Qed.

(** X16: the text [clean_text] returns holds no line feed, is one character
    longer for each double quote of the input, and is the input itself when
    that holds neither a double quote nor a line feed. *)
Theorem clean_text_effect (text : str) :
  ~ In NL (clean_text text) /\
  List.length (clean_text text)
  = (List.length text + count_occ N.eq_dec text DQUOTE)%nat /\
  (~ In DQUOTE text -> ~ In NL text -> clean_text text = text).
Proof.
  repeat split.
  - unfold clean_text; apply replace1_removes.
    intros [H|[]]; discriminate.
  - induction text as [|c text IH]; [reflexivity|].
    rewrite clean_text_cons, length_app, IH; cbn [count_occ].
    destruct (N.eq_dec c DQUOTE) as [->|Hc]; [cbn; lia|].
    destruct (N.eqb_spec c DQUOTE) as [E|_]; [now elim Hc|].
    destruct (N.eqb c NL); cbn; lia.
  - intros Hq Hn; unfold clean_text.
    now rewrite (replace1_absent DQUOTE _ text Hq), (replace1_absent NL _ text Hn).
Qed.

Lemma clean_text_effect_witness :
  clean_text (u"Drink water.") = u"Drink water.".
Proof.
  apply (clean_text_effect (u"Drink water.")).
  - vm_compute; intuition discriminate.
  - vm_compute; intuition discriminate.
Defined.

Lemma template_rest_clean (text rest : str) :
  forallb (fun c => negb (template_special c)) text = true ->
  template_rest (clean_text text ++ rest) = template_rest rest.
Proof.
  induction text as [|c text IH]; intros H; [reflexivity|].
  cbn [forallb] in H; apply andb_true_iff in H as [Hc Ht].
  rewrite clean_text_cons, <- app_assoc.
  destruct (N.eqb_spec c DQUOTE) as [->|Hq]; [cbn; now apply IH|].
  destruct (N.eqb_spec c NL) as [->|Hn]; [cbn; now apply IH|].
  unfold template_special in Hc.
  apply negb_true_iff, orb_false_iff in Hc as [Hc H36].
  apply orb_false_iff in Hc as [Hb Hs].
  cbn [app template_rest]; rewrite Hb, Hs, H36.
  now apply IH.
Qed.

Lemma after_prefix_app (p s : str) : after_prefix p (p ++ s) = Some s.
Proof.
  induction p as [|c p IH]; [now destruct s|].
  cbn; now rewrite N.eqb_refl.
Qed.

Lemma script_end_skip (s rest : str) :
  forallb (fun c => negb (N.eqb c LESS_THAN)) s = true ->
  script_end ScriptData (s ++ rest) = script_end ScriptData rest.
Proof.
  induction s as [|c s IH]; intros H; [reflexivity|].
  cbn [forallb] in H; apply andb_true_iff in H as [Hc Hs].
  apply negb_true_iff in Hc.
  cbn [app script_end script_step]; unfold in_script_data; rewrite Hc.
  now apply IH.
Qed.

Lemma clean_text_no_less_than (text : str) :
  forallb (fun c => negb (N.eqb c LESS_THAN)) text = true ->
  forallb (fun c => negb (N.eqb c LESS_THAN)) (clean_text text) = true.
Proof.
  induction text as [|c text IH]; intros H; [reflexivity|].
  cbn [forallb] in H; apply andb_true_iff in H as [Hc Ht].
  rewrite clean_text_cons, forallb_app, (IH Ht), andb_true_r.
  destruct (N.eqb c DQUOTE); [reflexivity|].
  destruct (N.eqb c NL); [reflexivity|].
  cbn [forallb]; now rewrite Hc.
Qed.

Lemma payload_special_split (text : str) :
  forallb (fun c => negb (payload_special c)) text = true ->
  forallb (fun c => negb (template_special c)) text = true /\
  forallb (fun c => negb (N.eqb c LESS_THAN)) text = true.
Proof.
  induction text as [|c text IH]; intros H; [now split|].
  cbn [forallb] in *; apply andb_true_iff in H as [Hc Ht].
  destruct (IH Ht) as [H1 H2]; rewrite H1, H2.
  unfold payload_special in Hc.
  apply negb_true_iff, orb_false_iff in Hc as [-> ->]; now split.
Qed.

(** X17: for a text without backtick, backslash, dollar sign and less-than
    sign the payload is well formed, whatever quotes and line breaks the
    text has: read as HTML, the script element ends at the end tag the
    f-string wrote, and read as JavaScript, the template literal that holds
    the text ends at the backtick the f-string wrote. *)
Theorem payload_well_formed_without_specials (text : str) :
  forallb (fun c => negb (payload_special c)) text = true ->
  payload_well_formed text = true.
Proof.
  intros H; destruct (payload_special_split text H) as [Hjs Hhtml].
  unfold payload_well_formed; apply andb_true_iff; split.
  - unfold literal_closed.
    rewrite (template_rest_clean text _ Hjs).
    reflexivity.
  - unfold script_intact.
    change (text_to_speech text)
      with (SCRIPT_OPEN ++ (JS_HEAD ++ (clean_text text ++ [BACKTICK] ++ JS_AFTER))).
    rewrite after_prefix_app.
    rewrite (script_end_skip JS_HEAD _ eq_refl).
    rewrite (script_end_skip (clean_text text) _ (clean_text_no_less_than text Hhtml)).
    reflexivity.
Qed.

Lemma payload_well_formed_without_specials_witness :
  payload_well_formed (u"Drink " ++ [DQUOTE] ++ u"plenty" ++ [DQUOTE; NL] ++ u"of water.")
  = true.
Proof.
  apply (payload_well_formed_without_specials
           (u"Drink " ++ [DQUOTE] ++ u"plenty" ++ [DQUOTE; NL] ++ u"of water.")).
  reflexivity.
Defined.

(** ** A chat submission, from the text to the speech *)

(** X18: a chat submission with a text and a non-blank key, on which the
    client returns the string [s]: the user turn is stored, one request goes
    out, the reply is stored as the assistant turn, and the payload of [s]
    goes to the browser exactly when voice is enabled and [s] does not start
    with the cross mark. *)
Theorem chat_turn_trace (net : network) (k : str) (voice : bool) (text s : str)
    (w : world) :
  let ev := chat_event k voice text in
  let asked := messages (ss w) ++ [user_turn text] in
  let req := build_request asked (stored_key ev w) in
  truthy text = true ->
  strip (stored_key ev w) <> [] ->
  classify (net (calls w) req) = Val (PStr s) ->
  messages (ss (handle net ev w)) = asked ++ [assistant_turn (PStr s)] /\
  trace (handle net ev w)
  = trace w ++ [Store asked; Post req; Store (asked ++ [assistant_turn (PStr s)])]
    ++ (if voice && negb (startswith s CROSS) then [Html (text_to_speech s)] else []).
Proof.
  intros ev asked req Ht Hk Hr.
  assert (Htk : truthy (stored_key ev w) = true).
  { destruct (stored_key ev w); [now elim Hk|reflexivity]. }
  pose proof (client_with_key (net (calls w)) asked (stored_key ev w) Hk) as Hg.
  fold req in Hg; rewrite Hr in Hg.
  destruct (handle_chat net ev w text _ _ eq_refl Ht Htk Hg) as (Hm & Htr & _).
  rewrite Hm, Htr; split; reflexivity.
Qed.

Lemma chat_turn_trace_witness :
  trace (handle (fun _ _ => Responds (ok_response (Val DRINK_WATER)))
           (chat_event (u"sk-test") true (u"hello")) initial_world)
  = [Store [user_turn (u"hello")];
     Post (build_request [user_turn (u"hello")] (u"sk-test"));
     Store [user_turn (u"hello"); assistant_turn (PStr (u"Drink water."))];
     Html (text_to_speech (u"Drink water."))].
Proof.
  apply (chat_turn_trace (fun _ _ => Responds (ok_response (Val DRINK_WATER)))
           (u"sk-test") true (u"hello") (u"Drink water.") initial_world).
  - reflexivity.
  - vm_compute; discriminate.
  - reflexivity.
Defined.

(** X19: when the client lets an exception through during a chat
    submission, the user turn is already stored and stays without an
    assistant turn; nothing is spoken. *)
Theorem chat_client_raises (net : network) (k : str) (voice : bool) (text : str)
    (w : world) (reqs : list request) (e : exn) :
  let ev := chat_event k voice text in
  let asked := messages (ss w) ++ [user_turn text] in
  truthy text = true ->
  truthy (stored_key ev w) = true ->
  get_deepseek_response (net (calls w)) asked (stored_key ev w) = (reqs, Exc e) ->
  messages (ss (handle net ev w)) = asked /\
  trace (handle net ev w) = trace w ++ [Store asked] ++ map Post reqs.
Proof.
  intros ev asked Ht Hk Hg.
  destruct (handle_chat net ev w text _ _ eq_refl Ht Hk Hg) as (Hm & Htr & _).
  rewrite Hm, Htr; split; reflexivity.
Qed.

Lemma chat_client_raises_witness :
  messages (ss (handle (fun _ _ => Responds (ok_response (Val PNone)))
                  (chat_event (u"sk-test") true (u"hello")) initial_world))
  = [user_turn (u"hello")].
Proof.
  apply (chat_client_raises (fun _ _ => Responds (ok_response (Val PNone)))
           (u"sk-test") true (u"hello") initial_world
           [build_request [user_turn (u"hello")] (u"sk-test")]
           (TypeError (u"argument is not iterable"))).
  - reflexivity.
  - reflexivity.
  - reflexivity.
Defined.

(** X20: in a session without a click on Clear Chat History the transcript
    only grows: what it held at any moment is a prefix of what it holds
    after any further actions, each of which adds at most two turns. *)
Theorem session_without_clear_grows (net : network) (evs : list event) (w : world) :
  Forall (fun ev => fired ev <> ClearClick) evs ->
  exists extra,
    messages (ss (session net evs w)) = messages (ss w) ++ extra /\
    (List.length extra <= 2 * List.length evs)%nat.
Proof.
  intros H; revert w; induction H as [|ev evs Hev _ IH]; intros w.
  - exists []; split; [now rewrite app_nil_r|simpl; lia].
  - cbn [session].
    destruct (IH (handle net ev w)) as (later & Hl & Hn).
    destruct (run_messages _ _ _ (handle_summary net ev w))
      as [[Hc _]|(_ & first & Hm & Hf & _)]; [now elim Hev|].
    exists (first ++ later); split.
    + now rewrite Hl, Hm, app_assoc.
    + rewrite length_app; cbn [List.length]; lia.
Qed.

Lemma session_without_clear_grows_witness :
  exists extra,
    messages (ss (session (fun _ _ => Responds (ok_response (Val DRINK_WATER)))
                    [chat_event (u"sk-test") false (u"hello");
                     {| api_key_input := u"sk-test"; voice_checkbox := false;
                        fired := QuickClick 1 |}]
                    initial_world))
    = messages (ss initial_world) ++ extra /\
    (List.length extra <= 2 * 2)%nat.
Proof.
  apply (session_without_clear_grows
           (fun _ _ => Responds (ok_response (Val DRINK_WATER)))
           [chat_event (u"sk-test") false (u"hello");
            {| api_key_input := u"sk-test"; voice_checkbox := false;
               fired := QuickClick 1 |}]
           initial_world).
  repeat constructor; discriminate.
Defined.
